(** * Mercari recommendation pipeline: a shallow embedding

    The development follows [mercari_agent/recommender.py] (the two-stage
    ranking service and its client adapter), the candidate validation of
    [mercari_agent/agent.py] and the data classes of
    [mercari_agent/models.py].

    Conventions of the embedding.
    - Python [str] is a list of Unicode code points; [None] is [None] of
      [option]; Python truthiness is written out ([truthy_str],
      [truthy_int]).
    - Python [int] is [Z].  Python [float] has two readings.  The
      pipeline, whose statements are about filters, bounds and order,
      reads a float as the exact rational it stands for ([Q], compared
      with [Qeq]).  The module [Binary64] holds the scoring functions
      once more with every operation the IEEE 754 double-precision one,
      as Python computes them; statements about the value of a score are
      made there.
    - An awaited call either returns or raises ([Outcome]); the calls made
      on the client are recorded in a log, in the order they are started.
    - [asyncio.gather] takes the completion order of its awaitables as an
      explicit argument, so that statements hold for every interleaving. *)

From Stdlib Require Import ZArith QArith Qabs Qminmax Lia List Sorted Ascii String.
From Stdlib Require Import Floats.SpecFloat.
From stdpp Require Import base gmap sets list.

Local Open Scope Z_scope.

(** ** Strings *)

(** An ASCII string literal of the source, as code points. *)
Definition lit (s : string) : list N :=
  map N_of_ascii (list_ascii_of_string s).

(** [str.isspace] for one code point: the characters [str.strip()] removes. *)
Definition py_isspace (c : N) : bool :=
  ((9 <=? c) && (c <=? 13) || (28 <=? c) && (c <=? 32)
   || (c =? 133) || (c =? 160) || (c =? 5760)
   || (8192 <=? c) && (c <=? 8202)
   || (c =? 8232) || (c =? 8233) || (c =? 8239) || (c =? 8287)
   || (c =? 12288))%N.

Fixpoint lstrip (s : list N) : list N :=
  match s with
  | c :: s' => if py_isspace c then lstrip s' else s
  | [] => []
  end.

(** [s.strip()] *)
Definition strip (s : list N) : list N := rev (lstrip (rev (lstrip s))).

(** [t in name] on strings: [t] occurs as a contiguous run of [name]. *)
Fixpoint starts_with (t s : list N) : bool :=
  match t, s with
  | [], _ => true
  | a :: t', b :: s' => (a =? b)%N && starts_with t' s'
  | _ :: _, [] => false
  end.

Fixpoint contains (s t : list N) : bool :=
  starts_with t s ||
  match s with
  | [] => false
  | _ :: s' => contains s' t
  end.

(** [sep.join(parts)] *)
Fixpoint join (sep : list N) (parts : list (list N)) : list N :=
  match parts with
  | [] => []
  | [p] => p
  | p :: ps => p ++ sep ++ join sep ps
  end.

(** ** Truthiness and numbers *)

Definition truthy_str (o : option (list N)) : bool :=
  match o with
  | Some (_ :: _) => true
  | _ => false
  end.

Definition truthy_int (o : option Z) : bool :=
  match o with
  | Some z => negb (z =? 0)
  | None => false
  end.

Definition Qlt_bool (a b : Q) : bool := negb (Qle_bool b a).

(** Python [max(a, b)] on floats: [b] when [b > a], else the first argument. *)
Definition py_max (a b : Q) : Q := if Qlt_bool a b then b else a.

(** Python [int(x)] on a float: truncation toward zero.  (The one product
    it is applied to, [max_price_jpy * 0.25], is exact in binary64 for
    every integer below 2^53 in magnitude.) *)
Definition py_int (x : Q) : Z := Z.quot (Qnum x) (Zpos (Qden x)).

(** Python [xs[:n]]: the first [n] elements, a negative [n] counting from
    the end. *)
Definition slice_to {A} (n : Z) (xs : list A) : list A :=
  if n <? 0
  then firstn (Z.to_nat (Z.of_nat (length xs) + n)) xs
  else firstn (Z.to_nat n) xs.

(** ** models.py *)

Record SearchRequest := {
  query_text : list N;
  min_price : option Z;
  max_price : option Z;
  shipping_preference : option (list N);
  location : option (list N);
  brand : option (list N)
}.

Record ProductShallow := {
  id : option (list N);
  name : option (list N);
  price_jpy : Z;
  item_type : option (list N);
  seller_rating : option Q;
  seller_sales_count : option Z;
  condition_label : option (list N);
  url : option (list N);
  created_at : option (list N)
}.

(** [ProductFull] extends [ProductShallow]: the inherited fields are kept
    together in [shallow]. *)
Record ProductFull := {
  shallow : ProductShallow;
  description : option (list N);
  category : option (list N);
  attributes : option (list (list N * list N));
  shipping_fee_included : option bool;
  shipping_days_min : option Z;
  shipping_days_max : option Z
}.

(** ** config.py *)

Definition MAX_SHALLOW : Z := 120.
Definition MAX_CANDIDATES : Z := 60.
Definition MAX_RETURN : Z := 10.
Definition MIN_SELLER_RATING : Q := 0.

(** ** The marketplace library (mercapi) as seen by the adapter *)

(** One search result.  [id_] is [None] when the attribute is missing or
    null ([getattr(item, "id_", None)]); [created] holds the ISO-8601 text
    of the timestamp when there is one. *)
Record RawItem := {
  id_ : option (list N);
  raw_name : option (list N);
  price : Z;
  raw_item_type : option (list N);
  created : option (list N)
}.

Record Seller := {
  star_rating_score : Q;
  num_sell_items : Z
}.

Record ShippingDuration := {
  min_days : option Z;
  max_days : option Z
}.

(** The detail record returned by [raw_item.full_item()].  A sub-record
    with a single field read by the pipeline is held as that field:
    [item_condition] and [item_category] hold the [name] of the sub-record
    when it is there, [shipping_payer] its [code]. *)
Record FullRaw := {
  seller : option Seller;
  item_condition : option (option (list N));
  full_created : option (list N);
  shipping_payer : option (option (list N));
  shipping_duration : option ShippingDuration;
  item_category : option (option (list N));
  full_description : option (list N)
}.

(** ** Awaited calls *)

Inductive Outcome (E A : Type) : Type :=
| Returned (a : A)
| Raised (e : E).
Arguments Returned {E A} a.
Arguments Raised {E A} e.

Definition returned {E A} (o : Outcome E A) : option A :=
  match o with
  | Returned a => Some a
  | Raised _ => None
  end.

(** [asyncio.gather] with [return_exceptions=False].  [order] lists the
    indices of the awaitables by completion time; an awaitable that is not
    listed completes after the listed ones, in argument order.  The first
    exception in completion order is the one the caller sees; with no
    exception the results come back in argument order. *)
Fixpoint first_raised {E A} (outs : list (Outcome E A)) (order : list nat)
  : option E :=
  match order with
  | [] => None
  | i :: order' =>
      match outs !! i with
      | Some (Raised e) => Some e
      | _ => first_raised outs order'
      end
  end.

Definition gather {E A} (order : list nat) (outs : list (Outcome E A))
  : Outcome E (list A) :=
  match first_raised outs (order ++ seq 0 (length outs)) with
  | Some e => Raised e
  | None => Returned (omap returned outs)
  end.

(** ** utils.py: the relevance tokenizer *)

(** The character class of the token pattern: ASCII letters and digits,
    hiragana, katakana, the common kanji block and the long-vowel mark. *)
Definition token_char (c : N) : bool :=
  ((65 <=? c) && (c <=? 90) || (97 <=? c) && (c <=? 122)
   || (48 <=? c) && (c <=? 57)
   || (12353 <=? c) && (c <=? 12435)
   || (12449 <=? c) && (c <=? 12531)
   || (19968 <=? c) && (c <=? 40869)
   || (c =? 12540))%N.

Definition flush (cur : list N) : list (list N) :=
  match cur with
  | [] => []
  | _ :: _ => [rev cur]
  end.

(** [re.findall] with the token pattern: the maximal runs of token
    characters, left to right; [cur] is the run being read, reversed. *)
Fixpoint findall (cur : list N) (s : list N) : list (list N) :=
  match s with
  | [] => flush cur
  | c :: s' =>
      if token_char c then findall (c :: cur) s'
      else flush cur ++ findall [] s'
  end.

Definition uniq_step (st : list (list N) * gset (list N)) (t : list N)
  : list (list N) * gset (list N) :=
  if decide (t ∈ st.2) then st else (st.1 ++ [t], {[t]} ∪ st.2).

Section Pipeline.

(** [str.lower]: the Unicode case mapping is a parameter of the model. *)
Variable lower : list N -> list N.

(** The exceptions a client call can raise. *)
Context {Exn : Type}.

Definition tokenize (text : list N) : list (list N) :=
  (foldl uniq_step ([], ∅) (findall [] (lower text))).1.

(** ** recommender.py: the client boundary *)

(** [AbstractMercariClient] *)
Record Client := {
  search : SearchRequest -> Z -> Outcome Exn (list RawItem);
  enrich_item : RawItem -> Outcome Exn (option FullRaw)
}.

(** The two entry points of the mercapi library the adapter uses:
    [Mercapi.search] (with the status filter fixed to on-sale items) and
    the per-item detail fetch [raw_item.full_item()], which returns the
    detail record, returns [None], or raises. *)
Record Mercapi := {
  mercapi_search :
    list N -> option Z -> option Z -> list Z -> Outcome Exn (list RawItem);
  full_item : RawItem -> Outcome Exn (option FullRaw)
}.

Definition MercapiClient_search (api : Mercapi) (request : SearchRequest)
    (limit : Z) : Outcome Exn (list RawItem) :=
  let query :=
    match location request with
    | Some (c :: loc) => query_text request ++ lit " " ++ (c :: loc)
    | _ => query_text request
    end in
  let shipping_payer :=
    if decide (shipping_preference request = Some (lit "seller_pays"))
    then [2]
    else if decide (shipping_preference request = Some (lit "buyer_pays"))
    then [1]
    else [] in
  match mercapi_search api query (min_price request) (max_price request)
          shipping_payer with
  | Returned items => Returned (slice_to limit items)
  | Raised e => Raised e
  end.

Definition MercapiClient_enrich_item (api : Mercapi) (raw_item : RawItem)
    : Outcome Exn (option FullRaw) :=
  match full_item api raw_item with
  | Returned full => Returned full
  | Raised _ => Returned None
  end.

Definition MercapiClient (api : Mercapi) : Client :=
  {| search := MercapiClient_search api;
     enrich_item := MercapiClient_enrich_item api |}.

(** ** recommender.py: the recommendation service *)

Record RecommendationService := {
  client : Client;
  max_shallow : Z;
  max_candidates : Z;
  max_return : Z;
  min_seller_rating : Q;
  max_price_jpy : option Z
}.

(** The constructor with its defaults, as [agent.py] calls it. *)
Definition new_service (c : Client) (max_price : option Z)
    : RecommendationService :=
  {| client := c;
     max_shallow := MAX_SHALLOW;
     max_candidates := MAX_CANDIDATES;
     max_return := MAX_RETURN;
     min_seller_rating := MIN_SELLER_RATING;
     max_price_jpy := max_price |}.

Definition ITEM_TYPE_MERCARI : list N := lit "ITEM_TYPE_MERCARI".

Definition _parse_shallow (raw_item : RawItem) : ProductShallow :=
  {| id := id_ raw_item;
     name := raw_name raw_item;
     price_jpy := price raw_item;
     item_type := raw_item_type raw_item;
     seller_rating := None;
     seller_sales_count := None;
     condition_label := None;
     url := None;
     created_at := created raw_item |}.

(** [p.seller_rating or 0.0] *)
Definition rating_or_zero (p : ProductShallow) : Q :=
  match seller_rating p with
  | Some r => r
  | None => 0
  end.

Definition _should_include (self : RecommendationService)
    (p : ProductShallow) : bool :=
  if truthy_str (item_type p)
     && negb (bool_decide (item_type p = Some ITEM_TYPE_MERCARI))
  then false
  else
    let m := default 0 (max_price_jpy self) in
    if truthy_int (max_price_jpy self) && (m <? price_jpy p)
    then false
    else if truthy_int (max_price_jpy self) && (10000 <=? m)
            && (price_jpy p <? Z.max 500 (py_int (inject_Z m * (25 # 100))))
    then false
    else if Qlt_bool (rating_or_zero p) (min_seller_rating self)
    then false
    else true.

(** [self._current_tokens] is passed as [tokens]. *)
Definition _relevance_score (tokens : list (list N)) (p : ProductShallow)
    : Q :=
  match tokens with
  | [] => 0
  | _ :: _ =>
      let nm := lower (default [] (name p)) in
      let hits :=
        length (List.filter
                  (fun t => negb (bool_decide (t = [])) && contains nm t)
                  tokens) in
      inject_Z (Z.of_nat hits)
      / inject_Z (Z.max (Z.of_nat (length tokens)) 1)
  end.

Definition _price_score (self : RecommendationService) (p : ProductShallow)
    : Q :=
  if negb (truthy_int (max_price_jpy self)) then 0
  else
    let m := default 0 (max_price_jpy self) in
    let target := py_max 1 (inject_Z m * (7 # 10)) in
    let diff := Qabs (inject_Z (price_jpy p) - target) in
    py_max 0 (1 - diff / target).

Definition _shallow_score (self : RecommendationService)
    (tokens : list (list N)) (p : ProductShallow) : Q :=
  let relevance := _relevance_score tokens p in
  let rating := rating_or_zero p in
  let price_score := _price_score self p in
  relevance * 4 + rating * (12 # 10) + price_score * (13 # 10).

Definition _merge_full (raw : FullRaw) (sh : ProductShallow) : ProductFull :=
  let sh1 :=
    match seller raw with
    | Some s =>
        {| id := id sh; name := name sh; price_jpy := price_jpy sh;
           item_type := item_type sh;
           seller_rating := Some (star_rating_score s);
           seller_sales_count := Some (num_sell_items s);
           condition_label := condition_label sh; url := url sh;
           created_at := created_at sh |}
    | None => sh
    end in
  let sh2 :=
    match item_condition raw with
    | Some c =>
        {| id := id sh1; name := name sh1; price_jpy := price_jpy sh1;
           item_type := item_type sh1;
           seller_rating := seller_rating sh1;
           seller_sales_count := seller_sales_count sh1;
           condition_label := c; url := url sh1;
           created_at := created_at sh1 |}
    | None => sh1
    end in
  let sh3 :=
    match full_created raw with
    | Some t =>
        {| id := id sh2; name := name sh2; price_jpy := price_jpy sh2;
           item_type := item_type sh2;
           seller_rating := seller_rating sh2;
           seller_sales_count := seller_sales_count sh2;
           condition_label := condition_label sh2; url := url sh2;
           created_at := Some t |}
    | None => sh2
    end in
  let fee_included :=
    match shipping_payer raw with
    | Some (Some (c :: code)) => bool_decide (c :: code = lit "seller")
    | _ => false
    end in
  {| shallow := sh3;
     description := full_description raw;
     category := match item_category raw with
                 | Some c => c
                 | None => None
                 end;
     attributes := None;
     shipping_fee_included := Some fee_included;
     shipping_days_min := shipping_duration raw ≫= min_days;
     shipping_days_max := shipping_duration raw ≫= max_days |}.

Definition shipping_bonus (p : ProductFull) : Q :=
  match shipping_fee_included p with
  | Some true => 5 # 10
  | _ => 0
  end.

Definition _deep_score (self : RecommendationService)
    (tokens : list (list N)) (p : ProductFull) : Q :=
  let base := _shallow_score self tokens (shallow p) in
  base + shipping_bonus p.

(** [sorted(xs, key=key, reverse=True)]: a stable sort into descending key
    order; elements with equal keys keep their order in [xs]. *)
Fixpoint insert_desc {A} (key : A -> Q) (x : A) (l : list A) : list A :=
  match l with
  | [] => [x]
  | y :: l' =>
      if Qlt_bool (key x) (key y) then y :: insert_desc key x l'
      else x :: l
  end.

Definition sorted_desc {A} (key : A -> Q) (xs : list A) : list A :=
  foldr (insert_desc key) [] xs.

(** The body of the pooling loop; the state is [(raw_items, seen_ids)]. *)
Definition pool_step (st : list RawItem * gset (list N)) (item : RawItem)
    : list RawItem * gset (list N) :=
  match id_ item with
  | Some (c :: i) =>
      if decide ((c :: i) ∈ st.2) then st
      else (st.1 ++ [item], {[c :: i]} ∪ st.2)
  | _ => st
  end.

Definition pool (per_request_results : list (list RawItem)) : list RawItem :=
  (foldl (fun st items => foldl pool_step st items) ([], ∅)
         per_request_results).1.

(** Parse, filter, score and cut: the shallow survivors. *)
Definition shallow_stage (self : RecommendationService)
    (tokens : list (list N)) (raw_items : list RawItem)
    : list ProductShallow :=
  let shallow_items := map _parse_shallow raw_items in
  let filtered := List.filter (_should_include self) shallow_items in
  let scored := sorted_desc (_shallow_score self tokens) filtered in
  slice_to (max_candidates self) scored.

(** [raw_by_id = {it.id_: it for it in raw_items}] *)
Definition index_by_id (raw_items : list RawItem)
    : gmap (option (list N)) RawItem :=
  foldl (fun m it => <[id_ it := it]> m) ∅ raw_items.

(** The merge loop over [zip(enriched_raw, candidates)]. *)
Definition merge_stage (enriched_raw : list (option FullRaw))
    (candidates : list ProductShallow) : list ProductFull :=
  omap (fun rs : option FullRaw * ProductShallow =>
          match rs.1 with
          | Some raw => Some (_merge_full raw rs.2)
          | None => None
          end)
       (combine enriched_raw candidates).

Definition final_rank (self : RecommendationService)
    (tokens : list (list N)) (enriched : list ProductFull)
    : list ProductFull :=
  let ranked := sorted_desc (_deep_score self tokens) enriched in
  slice_to (max_return self) ranked.

(** A call started on the client. *)
Inductive Call :=
| SearchCall (request : SearchRequest) (limit : Z)
| EnrichCall (raw_item : RawItem).

(** Completion orders of the two concurrent phases. *)
Record Schedule := {
  search_order : list nat;
  enrich_order : list nat
}.

(** [RecommendationService.recommend]: the calls started on the client and
    the outcome of the call. *)
Definition recommend (sched : Schedule) (self : RecommendationService)
    (search_requests : list SearchRequest) (user_query : list N)
    : list Call * Outcome Exn (list ProductFull) :=
  match search_requests with
  | [] => ([], Returned [])
  | _ :: _ =>
      let search_calls :=
        map (fun req => SearchCall req (max_shallow self)) search_requests in
      let search_tasks :=
        map (fun req => search (client self) req (max_shallow self))
            search_requests in
      match gather (search_order sched) search_tasks with
      | Raised e => (search_calls, Raised e)
      | Returned per_request_results =>
          let raw_items := pool per_request_results in
          let combined_query_text :=
            join (lit " ") (map query_text search_requests) in
          let tokens :=
            tokenize (user_query ++ lit " " ++ combined_query_text) in
          let candidates := shallow_stage self tokens raw_items in
          let raw_by_id := index_by_id raw_items in
          let to_enrich := omap (fun p => raw_by_id !! id p) candidates in
          let calls := search_calls ++ map EnrichCall to_enrich in
          match gather (enrich_order sched)
                       (map (enrich_item (client self)) to_enrich) with
          | Raised e => (calls, Raised e)
          | Returned enriched_raw =>
              (calls,
               Returned
                 (final_rank self tokens (merge_stage enriched_raw candidates)))
          end
      end
  end.

(** ** agent.py: from tool arguments to search requests *)

(** The value found under a key of a candidate object. *)
Inductive JSON :=
| JNull
| JString (s : list N)
| JOther.

Record Candidate := {
  keywords : JSON;
  min_price_jpy : option Z;
  cand_max_price_jpy : option Z;
  cand_shipping_preference : option (list N);
  cand_location : option (list N);
  cand_brand : option (list N)
}.

(** The loop body that validates one candidate: [None] stands for
    [continue]. *)
Definition build_request (cand : Candidate) : option SearchRequest :=
  match keywords cand with
  | JString kw =>
      match strip kw with
      | [] => None
      | c :: q =>
          Some {| query_text := c :: q;
                  min_price := min_price_jpy cand;
                  max_price := cand_max_price_jpy cand;
                  shipping_preference := cand_shipping_preference cand;
                  location := cand_location cand;
                  brand := cand_brand cand |}
      end
  | _ => None
  end.

Definition global_max_price (candidates_payload : list Candidate)
    : option Z :=
  match omap cand_max_price_jpy candidates_payload with
  | [] => None
  | v :: vs => Some (foldl Z.min v vs)
  end.

(** The [get_recommendations] branch of [MercariChatAgent.chat], up to the
    ranked products (their serialisation is left out). *)
Definition get_recommendations (sched : Schedule) (mercari_client : Client)
    (candidates_payload : list Candidate) (user_query : list N)
    : list Call * Outcome Exn (list ProductFull) :=
  match candidates_payload with
  | [] => ([], Returned [])
  | _ :: _ =>
      let svc :=
        new_service mercari_client (global_max_price candidates_payload) in
      match omap build_request candidates_payload with
      | [] => ([], Returned [])
      | req :: reqs => recommend sched svc (req :: reqs) user_query
      end
  end.

(** ** Names for the intermediate values of [recommend] *)

(** The tokens [recommend] stores in [self._current_tokens]. *)
Definition current_tokens (search_requests : list SearchRequest)
    (user_query : list N) : list (list N) :=
  tokenize (user_query ++ lit " "
            ++ join (lit " ") (map query_text search_requests)).

(** The searches [recommend] starts, one per request. *)
Definition search_calls (self : RecommendationService)
    (search_requests : list SearchRequest) : list Call :=
  map (fun req => SearchCall req (max_shallow self)) search_requests.

(** The raw items behind the shallow survivors. *)
Definition survivors (self : RecommendationService)
    (tokens : list (list N)) (raw_items : list RawItem) : list RawItem :=
  slice_to (max_candidates self)
    (sorted_desc
       (fun raw => _shallow_score self tokens (_parse_shallow raw))
       (List.filter (fun raw => _should_include self (_parse_shallow raw))
                    raw_items)).

(** What one survivor contributes to the merge: its full product when the
    detail fetch returned, nothing when it raised. *)
Definition enriched_product (api : Mercapi) (raw : RawItem)
    : option ProductFull :=
  match full_item api raw with
  | Returned (Some detail) => Some (_merge_full detail (_parse_shallow raw))
  | _ => None
  end.

End Pipeline.

(** ** The claims' formulas, as the specification words them *)

(** The price floor of the specification: [max(500, 0.25 * max price)]. *)
Definition spec_price_floor (max_price : Z) : Q :=
  Qmax 500 ((25 # 100) * inject_Z max_price).

(** The price score of the specification for a configured maximum:
    [max(0, 1 - |price - target| / target)], [target = max(1, 0.7 * max)]. *)
Definition spec_price_score (max_price : Z) (item_price : Z) : Q :=
  let target := Qmax 1 ((7 # 10) * inject_Z max_price) in
  Qmax 0 (1 - Qabs (inject_Z item_price - target) / target).

(** The relevance of the specification: the count of query tokens that
    occur in the lower-cased item name over the number of query tokens,
    0 without tokens. *)
Definition spec_relevance (tokens : list (list N)) (lowered_name : list N)
    : Q :=
  match tokens with
  | [] => 0
  | _ :: _ =>
      inject_Z (Z.of_nat (length (List.filter (contains lowered_name) tokens)))
      / inject_Z (Z.of_nat (length tokens))
  end.

(** The score of the specification:
    [4.0 * relevance + 1.2 * rating + 1.3 * price_score]. *)
Definition spec_score (relevance rating price_score : Q) : Q :=
  4 * relevance + (12 # 10) * rating + (13 # 10) * price_score.

(** ** The scores in binary64 *)

(** The float expressions of [recommender.py] evaluated with IEEE 754
    double precision as Python does: every operation is the correctly
    rounded one of [SpecFloat]. *)
Module Binary64.

Definition prec : Z := 53.
Definition emax : Z := 1024.

(** [float(z)] *)
Definition of_int (z : Z) : spec_float :=
  binary_normalize prec emax z 0 false.

(** The double nearest to the decimal literal [n / d]. *)
Definition of_ratio (n d : Z) : spec_float :=
  SFdiv prec emax (of_int n) (of_int d).

(** Python [max(a, b)] *)
Definition fmax (a b : spec_float) : spec_float :=
  if SFltb a b then b else a.

(** Python [int(x)] *)
Definition to_int (x : spec_float) : Z :=
  match x with
  | S754_finite s m e =>
      let v := if 0 <=? e then Z.pos m * 2 ^ e else Z.pos m / 2 ^ (- e) in
      if s then - v else v
  | _ => 0
  end.

(** The body of [_price_score] for a configured maximum. *)
Definition price_score (max_price item_price : Z) : spec_float :=
  let target :=
    fmax (of_int 1) (SFmul prec emax (of_int max_price) (of_ratio 7 10)) in
  let diff := SFabs (SFsub prec emax (of_int item_price) target) in
  fmax (of_int 0)
       (SFsub prec emax (of_int 1) (SFdiv prec emax diff target)).

(** [max(500, int(max_price * 0.25))] *)
Definition min_reasonable (max_price : Z) : Z :=
  Z.max 500
        (to_int (SFmul prec emax (of_int max_price) (of_ratio 25 100))).

(** A Python [int] as an operand of float arithmetic: the nearest double,
    and [None] for the [OverflowError] raised beyond the double range. *)
Definition float_of_int (z : Z) : option spec_float :=
  match of_int z with
  | S754_infinity _ => None
  | x => Some x
  end.

(** The double a rating field holds.  The records carry the value of the
    double as a rational; the quotient gives the double back (it is exact
    whenever numerator and denominator are doubles themselves). *)
Definition of_Q (q : Q) : spec_float := of_ratio (Qnum q) (Zpos (Qden q)).

(** [p.seller_rating or 0.0] *)
Definition rating_or_zero (p : ProductShallow) : spec_float :=
  match seller_rating p with
  | Some r => of_Q r
  | None => of_int 0
  end.

(** [_relevance_score]; the quotient of the two counts is the correctly
    rounded one, as Python's [int / int] is. *)
Definition _relevance_score (lower : list N -> list N)
    (tokens : list (list N)) (p : ProductShallow) : spec_float :=
  match tokens with
  | [] => of_int 0
  | _ :: _ =>
      let nm := lower (default [] (name p)) in
      let hits :=
        length (List.filter
                  (fun t => negb (bool_decide (t = [])) && contains nm t)
                  tokens) in
      SFdiv prec emax (of_int (Z.of_nat hits))
            (of_int (Z.max (Z.of_nat (length tokens)) 1))
  end.

(** [_price_score]; the divisor [target] is at least 1.0, so the division
    never raises. *)
Definition _price_score {Exn} (self : @RecommendationService Exn)
    (p : ProductShallow) : option spec_float :=
  if negb (truthy_int (max_price_jpy self)) then Some (of_int 0)
  else
    m ← float_of_int (default 0 (max_price_jpy self));
    let target := fmax (of_int 1) (SFmul prec emax m (of_ratio 7 10)) in
    price ← float_of_int (price_jpy p);
    let diff := SFabs (SFsub prec emax price target) in
    Some (fmax (of_int 0)
               (SFsub prec emax (of_int 1) (SFdiv prec emax diff target))).

Definition _shallow_score {Exn} (lower : list N -> list N)
    (self : @RecommendationService Exn) (tokens : list (list N))
    (p : ProductShallow) : option spec_float :=
  let relevance := _relevance_score lower tokens p in
  let rating := rating_or_zero p in
  price_score ← _price_score self p;
  Some (SFadd prec emax
          (SFadd prec emax (SFmul prec emax relevance (of_int 4))
                 (SFmul prec emax rating (of_ratio 12 10)))
          (SFmul prec emax price_score (of_ratio 13 10))).

Definition shipping_bonus (p : ProductFull) : spec_float :=
  match shipping_fee_included p with
  | Some true => of_ratio 5 10
  | _ => of_int 0
  end.

Definition _deep_score {Exn} (lower : list N -> list N)
    (self : @RecommendationService Exn) (tokens : list (list N))
    (p : ProductFull) : option spec_float :=
  base ← _shallow_score lower self tokens (shallow p);
  Some (SFadd prec emax base (shipping_bonus p)).

(** The formulas of the specification, in its words and in binary64. *)

(** [max(0, 1 - |price - target| / target)], [target = max(1, 0.7 * max)],
    for a configured maximum. *)
Definition spec_price_score (max_price item_price : Z) : option spec_float :=
  m ← float_of_int max_price;
  price ← float_of_int item_price;
  let target := fmax (of_int 1) (SFmul prec emax (of_ratio 7 10) m) in
  Some (fmax (of_int 0)
          (SFsub prec emax (of_int 1)
             (SFdiv prec emax (SFabs (SFsub prec emax price target)) target))).

Definition spec_relevance (tokens : list (list N)) (lowered_name : list N)
    : spec_float :=
  match tokens with
  | [] => of_int 0
  | _ :: _ =>
      SFdiv prec emax
        (of_int (Z.of_nat (length (List.filter (contains lowered_name) tokens))))
        (of_int (Z.of_nat (length tokens)))
  end.

(** [4.0 * relevance + 1.2 * rating + 1.3 * price_score] *)
Definition spec_score (relevance rating price_score : spec_float)
    : spec_float :=
  SFadd prec emax
    (SFadd prec emax (SFmul prec emax (of_int 4) relevance)
           (SFmul prec emax (of_ratio 12 10) rating))
    (SFmul prec emax (of_ratio 13 10) price_score).

End Binary64.

(** ** Fixtures for the concrete cases *)

Definition ascii_lower (s : list N) : list N :=
  map (fun c => if ((65 <=? c) && (c <=? 90))%N then (c + 32)%N else c) s.

(** A marketplace that is never reached. *)
Definition idle_client : @Client unit :=
  {| search := fun _ _ => Returned [];
     enrich_item := fun _ => Returned None |}.

(** A shallow item with the given tag and price and nothing else. *)
Definition bare_item (tag : option (list N)) (p : Z) : ProductShallow :=
  {| id := Some (lit "m1"); name := Some (lit "item"); price_jpy := p;
     item_type := tag; seller_rating := None; seller_sales_count := None;
     condition_label := None; url := None; created_at := None |}.

Definition budget_service (m : Z) : @RecommendationService unit :=
  new_service idle_client (Some m).

Definition listing (p : Z) : ProductShallow :=
  bare_item (Some ITEM_TYPE_MERCARI) p.

(** A search result with the given identifier and price. *)
Definition found (i : string) (p : Z) : RawItem :=
  {| id_ := Some (lit i); raw_name := Some (lit "PS5 console");
     price := p; raw_item_type := Some ITEM_TYPE_MERCARI; created := None |}.

Definition five_items : list RawItem :=
  [found "m1" 30000; found "m2" 31000; found "m3" 32000;
   found "m4" 33000; found "m5" 34000].

Definition seller_paid_detail : FullRaw :=
  {| seller := Some {| star_rating_score := 45 # 10; num_sell_items := 12 |};
     item_condition := Some (Some (lit "good"));
     full_created := None;
     shipping_payer := Some (Some (lit "seller"));
     shipping_duration := Some {| min_days := Some 1; max_days := Some 2 |};
     item_category := Some (Some (lit "games"));
     full_description := Some (lit "console") |}.

(** A marketplace with five listings for the query [ps5], none for other
    queries, a failing backend for the query [offline], and a detail fetch
    that fails for the listings [m2] and [m4]. *)
Definition demo_api : @Mercapi string :=
  {| mercapi_search := fun q _ _ _ =>
       if bool_decide (q = lit "offline") then Raised "backend down"%string
       else if bool_decide (q = lit "ps5") then Returned five_items
       else Returned [];
     full_item := fun raw =>
       if bool_decide (id_ raw = Some (lit "m2"))
          || bool_decide (id_ raw = Some (lit "m4"))
       then Raised "listing removed"%string
       else Returned (Some seller_paid_detail) |}.

Definition request (q : string) : SearchRequest :=
  {| query_text := lit q; min_price := None; max_price := None;
     shipping_preference := None; location := None; brand := None |}.

Definition demo_service : @RecommendationService string :=
  new_service (MercapiClient demo_api) None.

(** The same service with a rating floor of four stars. *)
Definition picky_service : @RecommendationService string :=
  {| client := MercapiClient demo_api;
     max_shallow := MAX_SHALLOW; max_candidates := MAX_CANDIDATES;
     max_return := MAX_RETURN; min_seller_rating := 4;
     max_price_jpy := None |}.

Definition demo_sched : Schedule :=
  {| search_order := [2; 0; 1]%nat; enrich_order := [4; 3; 2; 1; 0]%nat |}.

Definition candidate (kw : string) : Candidate :=
  {| keywords := JString (lit kw); min_price_jpy := None;
     cand_max_price_jpy := None; cand_shipping_preference := None;
     cand_location := None; cand_brand := None |}.

Definition full_of (sh : ProductShallow) (fee_included : bool) : ProductFull :=
  {| shallow := sh; description := None; category := None;
     attributes := None;
     shipping_fee_included := Some fee_included;
     shipping_days_min := None; shipping_days_max := None |}.

(** ** Predicates used in the statements *)

(** The item-type tags the type filter lets through. *)
Definition tag_ok (p : ProductShallow) : Prop :=
  item_type p = None \/ item_type p = Some []
  \/ item_type p = Some ITEM_TYPE_MERCARI.

(** Descending key order. *)
Definition desc {A} (key : A -> Q) (a b : A) : Prop := (key b <= key a)%Q.

(** The state of the pooling loop after the items [flat]. *)
Definition pool_state (flat : list RawItem) : list RawItem * gset (list N) :=
  foldl pool_step ([], ∅) flat.

(** The item [x] opens a new entry of the pool built from [flat]. *)
Definition fresh (flat : list RawItem) (x : RawItem) : Prop :=
  truthy_str (id_ x) = true /\ forall z, z ∈ flat -> id_ z <> id_ x.

(** [y] is the first item of [flat] that carries its identifier. *)
Definition first_seen (flat : list RawItem) (y : RawItem) : Prop :=
  exists pre post,
    flat = pre ++ y :: post /\ forall z, z ∈ pre -> id_ z <> id_ y.

(** [a] is met in [flat] before any item carrying the identifier of [b]. *)
Definition seen_before (flat : list RawItem) (a b : RawItem) : Prop :=
  exists f1 f2 f3,
    flat = f1 ++ a :: f2 ++ b :: f3
    /\ (forall z, z ∈ f1 -> id_ z <> id_ a)
    /\ (forall z, z ∈ f1 ++ a :: f2 -> id_ z <> id_ b).

(** Empty or whitespace-only text. *)
Definition blank (kw : list N) : Prop :=
  Forall (fun c => py_isspace c = true) kw.

(** ** utils.py: serialisation *)

(** Python [xs[n:]]: the list without its first [n] elements, a negative
    [n] counting from the end. *)
Definition slice_from {A} (n : Z) (xs : list A) : list A :=
  if n <? 0
  then skipn (Z.to_nat (Z.of_nat (length xs) + n)) xs
  else skipn (Z.to_nat n) xs.

Definition ITEM_URL_PREFIX : list N := lit "https://jp.mercari.com/item/".

Definition with_url (p : ProductFull) (u : option (list N)) : ProductFull :=
  {| shallow :=
       {| id := id (shallow p); name := name (shallow p);
          price_jpy := price_jpy (shallow p);
          item_type := item_type (shallow p);
          seller_rating := seller_rating (shallow p);
          seller_sales_count := seller_sales_count (shallow p);
          condition_label := condition_label (shallow p);
          url := u; created_at := created_at (shallow p) |};
     description := description p; category := category p;
     attributes := attributes p;
     shipping_fee_included := shipping_fee_included p;
     shipping_days_min := shipping_days_min p;
     shipping_days_max := shipping_days_max p |}.

(** [serialize_product]: the dictionary [asdict(p)] has the fields of the
    record as keys and is held as the record. *)
Definition serialize_product (p : ProductFull) : ProductFull :=
  if negb (truthy_str (url (shallow p)))
     && truthy_str (id (shallow p))
     && bool_decide (item_type (shallow p) = Some ITEM_TYPE_MERCARI)
  then with_url p (Some (ITEM_URL_PREFIX ++ default [] (id (shallow p))))
  else p.

(** ** agent.py: the chat turn *)

Definition MAX_TURNS : Z := 6.

(** A tool call of an assistant message. *)
Record ToolCall := {
  tc_id : list N;
  tc_type : list N;
  tc_name : list N;
  tc_arguments : list N
}.

(** The message object of a chat completion ([choices[0].message]);
    [api_tool_calls] is [None] when the attribute is missing or null. *)
Record ApiMessage := {
  api_role : list N;
  api_content : option (list N);
  api_tool_calls : option (list ToolCall)
}.

(** A message dictionary, as kept in the history and sent to the model; a
    key that is not set is [None]. *)
Record Message := {
  role : list N;
  content : option (list N);
  tool_calls : option (list ToolCall);
  tool_call_id : option (list N);
  msg_name : option (list N)
}.

Definition plain_message (r : list N) (c : option (list N)) : Message :=
  {| role := r; content := c; tool_calls := None; tool_call_id := None;
     msg_name := None |}.

(** [utils.message_to_dict] *)
Definition message_to_dict (msg : ApiMessage) : Message :=
  {| role := api_role msg;
     content := api_content msg;
     tool_calls :=
       match api_tool_calls msg with
       | Some (tc :: tcs) => Some (tc :: tcs)
       | _ => None
       end;
     tool_call_id := None;
     msg_name := None |}.

(** What reading the arguments of a tool call gives: a JSON syntax error,
    the value of [args.get("candidates") or []] for a decoded object, or
    another exception (the arguments are valid JSON of the wrong shape). *)
Inductive Decoded (E : Type) :=
| JSONDecodeError
| Candidates (payload : list Candidate)
| Malformed (e : E).
Arguments JSONDecodeError {E}.
Arguments Candidates {E} payload.
Arguments Malformed {E} e.

Definition APOLOGY : list N :=
  lit "Sorry, something went wrong. Please try again in a moment.".

Section Chat.

Variable lower : list N -> list N.
Context {Exn : Type}.

(** The two system prompts; their text plays no part in the control flow. *)
Variables SYSTEM_ANALYST_PROMPT SYSTEM_PRESENTATION_PROMPT : list N.

(** [json.loads] on the arguments of a tool call, and [json.dumps] on the
    serialised products. *)
Variable loads : list N -> Decoded Exn.
Variable dumps : list ProductFull -> list N.

(** [_oai.chat.completions.create]: the messages sent, whether the tools
    are offered, and the first choice's message or the exception raised. *)
Record OpenAI := {
  create : list Message -> bool -> Outcome Exn ApiMessage
}.

Record MercariChatAgent := {
  history : list Message;
  _mercari_client : @Client Exn
}.

Definition tool_message (tc : ToolCall) (recs : list ProductFull) : Message :=
  {| role := lit "tool";
     content := Some (dumps recs);
     tool_calls := None;
     tool_call_id := Some (tc_id tc);
     msg_name := Some (lit "get_recommendations") |}.

(** The loop over the tool calls of the analyst message: the marketplace
    calls started and the tool messages built, or the exception that ends
    the loop.  [sched k] is the completion order of the [k]-th call. *)
Fixpoint run_tool_calls (sched : nat -> Schedule) (k : nat)
    (mercari_client : @Client Exn) (user_query : list N)
    (tcs : list ToolCall) : list Call * Outcome Exn (list Message) :=
  match tcs with
  | [] => ([], Returned [])
  | tc :: rest =>
      if negb (bool_decide (tc_name tc = lit "get_recommendations"))
      then run_tool_calls sched (S k) mercari_client user_query rest
      else
        match loads (tc_arguments tc) with
        | Malformed e => ([], Raised e)
        | decoded =>
            let candidates_payload :=
              match decoded with
              | Candidates payload => payload
              | _ => []
              end in
            let r := get_recommendations lower (sched k) mercari_client
                       candidates_payload user_query in
            match r.2 with
            | Raised e => (r.1, Raised e)
            | Returned products =>
                let msg := tool_message tc (map serialize_product products) in
                let r' := run_tool_calls sched (S k) mercari_client
                            user_query rest in
                (r.1 ++ r'.1,
                 match r'.2 with
                 | Returned msgs => Returned (msg :: msgs)
                 | Raised e => Raised e
                 end)
            end
        end
  end.

(** The body of the [try] block of [chat]: the marketplace calls, and the
    reply with the two history entries, or the exception raised. *)
Definition chat_attempt (sched : nat -> Schedule) (llm : OpenAI)
    (self : MercariChatAgent) (user_query : list N)
    : list Call * Outcome Exn (list N * list Message) :=
  let user_msg := plain_message (lit "user") (Some user_query) in
  let working_messages := history self ++ [user_msg] in
  match create llm
          (plain_message (lit "system") (Some SYSTEM_ANALYST_PROMPT)
           :: working_messages) true with
  | Raised e => ([], Raised e)
  | Returned first_msg =>
      let assistant_entry := message_to_dict first_msg in
      let tools :=
        match api_tool_calls first_msg with
        | Some tcs =>
            run_tool_calls sched 0 (_mercari_client self) user_query tcs
        | None => ([], Returned [])
        end in
      match tools.2 with
      | Raised e => (tools.1, Raised e)
      | Returned [] =>
          (tools.1,
           Returned (default [] (api_content first_msg),
                     [user_msg; assistant_entry]))
      | Returned (m :: ms) =>
          match create llm
                  (plain_message (lit "system")
                                 (Some SYSTEM_PRESENTATION_PROMPT)
                   :: working_messages ++ [assistant_entry] ++ m :: ms)
                  false with
          | Raised e => (tools.1, Raised e)
          | Returned final_msg =>
              (tools.1,
               Returned (default [] (api_content final_msg),
                         [user_msg; message_to_dict final_msg]))
          end
      end
  end.

(** [MercariChatAgent.chat]: the marketplace calls started, the reply and
    the agent after the turn. *)
Definition chat (sched : nat -> Schedule) (llm : OpenAI)
    (self : MercariChatAgent) (user_query : list N)
    : list Call * (list N * MercariChatAgent) :=
  let user_msg := plain_message (lit "user") (Some user_query) in
  let attempt := chat_attempt sched llm self user_query in
  let done :=
    match attempt.2 with
    | Returned r => r
    | Raised _ =>
        (APOLOGY, [user_msg; plain_message (lit "assistant") (Some APOLOGY)])
    end in
  (attempt.1,
   (done.1,
    {| history := slice_from (-2 * MAX_TURNS) (history self ++ done.2);
       _mercari_client := _mercari_client self |})).

(** The messages of the analyst call. *)
Definition analyst_messages (self : MercariChatAgent) (user_query : list N)
    : list Message :=
  plain_message (lit "system") (Some SYSTEM_ANALYST_PROMPT)
  :: history self ++ [plain_message (lit "user") (Some user_query)].

(** The arguments of the tool call name no candidate that can be searched:
    they are not valid JSON, or every candidate has blank or non-text
    keywords. *)
Definition no_search_arguments (tc : ToolCall) : Prop :=
  loads (tc_arguments tc) = JSONDecodeError
  \/ exists payload,
       loads (tc_arguments tc) = Candidates payload
       /\ forall cand, cand ∈ payload ->
            match keywords cand with
            | JString kw => blank kw
            | _ => True
            end.

End Chat.

Definition user_message (user_query : list N) : Message :=
  plain_message (lit "user") (Some user_query).

Definition apology_entry : Message :=
  plain_message (lit "assistant") (Some APOLOGY).

Definition is_get_recommendations (tc : ToolCall) : bool :=
  bool_decide (tc_name tc = lit "get_recommendations").

(** A token of the relevance tokenizer: a non-empty run of token
    characters. *)
Definition token_like (t : list N) : Prop :=
  t <> [] /\ Forall (fun c => token_char c = true) t.

(** ** Fixtures for the agent *)

(** A client that passes the detail fetch through without catching. *)
Definition strict_client : @Client string :=
  {| search := MercapiClient_search demo_api;
     enrich_item := fun raw =>
       match full_item demo_api raw with
       | Returned full => Returned full
       | Raised e => Raised e
       end |}.

Definition strict_service : @RecommendationService string :=
  new_service strict_client None.

Definition priced_candidate (kw : string) (m : option Z) : Candidate :=
  {| keywords := JString (lit kw); min_price_jpy := None;
     cand_max_price_jpy := m; cand_shipping_preference := None;
     cand_location := None; cand_brand := None |}.

Definition unnamed_candidate : Candidate :=
  {| keywords := JNull; min_price_jpy := None;
     cand_max_price_jpy := Some 5000; cand_shipping_preference := None;
     cand_location := None; cand_brand := None |}.

(** Tool arguments are named by a word: [ps5] and [offline] decode to one
    candidate with that keyword, [blank] to a candidate with blank
    keywords, anything else is not valid JSON. *)
Definition demo_loads (args : list N) : Decoded string :=
  if bool_decide (args = lit "ps5") then Candidates [candidate "ps5"]
  else if bool_decide (args = lit "offline")
  then Candidates [candidate "offline"]
  else if bool_decide (args = lit "blank") then Candidates [candidate "  "]
  else JSONDecodeError.

Definition demo_dumps (recs : list ProductFull) : list N :=
  concat (map (fun p => default [] (id (shallow p)) ++ lit ";") recs).

Definition tool_request (fn args : string) : ApiMessage :=
  {| api_role := lit "assistant"; api_content := None;
     api_tool_calls :=
       Some [{| tc_id := lit "call_1"; tc_type := lit "function";
                tc_name := lit fn; tc_arguments := lit args |}] |}.

Definition spoken (text : string) : ApiMessage :=
  {| api_role := lit "assistant"; api_content := Some (lit text);
     api_tool_calls := None |}.

Definition down_llm : @OpenAI string :=
  {| create := fun _ _ => Raised "rate limited"%string |}.

Definition asking_llm : @OpenAI string :=
  {| create := fun _ _ => Returned (spoken "Which size?") |}.

Definition searching_llm (args : string) : @OpenAI string :=
  {| create := fun _ with_tools =>
       if with_tools then Returned (tool_request "get_recommendations" args)
       else Returned (spoken "Here are three options.") |}.

Definition demo_agent : @MercariChatAgent string :=
  {| history := [plain_message (lit "user") (Some (lit "hello"));
                 plain_message (lit "assistant") (Some (lit "hi"))];
     _mercari_client := MercapiClient demo_api |}.

Definition demo_chat (llm : @OpenAI string) (uq : string)
    : list Call * (list N * @MercariChatAgent string) :=
  chat ascii_lower (lit "analyst") (lit "presentation") demo_loads demo_dumps
       (fun _ => demo_sched) llm demo_agent (lit uq).

(** * Properties *)

(** ** Comparisons and rounding *)

(** In double precision the worked examples have the values of the exact
    model: [10000 * 0.7] rounds to 7000, so the price scores of 7000 and
    14000 are 1.0 and 0.0, and the price floors are 5000 and 2500. *)
Lemma worked_examples_binary64 :
  Binary64.price_score 10000 7000 = Binary64.of_int 1
  /\ Binary64.price_score 10000 14000 = Binary64.of_int 0
  /\ Binary64.min_reasonable 20000 = 5000
  /\ Binary64.min_reasonable 10001 = 2500.
Proof. repeat split; vm_compute; reflexivity. Qed.

Lemma SFmul_comm prec emax x y : SFmul prec emax x y = SFmul prec emax y x.
Proof.
  destruct x as [sx|sx| |sx mx ex], y as [sy|sy| |sy my ey]; simpl;
    rewrite ?(xorb_comm sx sy); try reflexivity.
  by rewrite Pos.mul_comm, Z.add_comm.
Qed.

(** The divisor of the price score is never zero: the division of the
    source cannot raise [ZeroDivisionError]. *)
Lemma target_not_zero x s :
  Binary64.fmax (Binary64.of_int 1) x <> S754_zero s.
Proof.
  unfold Binary64.fmax.
  destruct (SFltb (Binary64.of_int 1) x) eqn:Hlt; [|discriminate].
  intros ->. vm_compute in Hlt. discriminate.
Qed.

Lemma price_score_binary64 {Exn} (self : @RecommendationService Exn) p :
  Binary64._price_score self p
  = match max_price_jpy self with
    | Some m =>
        if (m =? 0)%Z then Some (Binary64.of_int 0)
        else Binary64.spec_price_score m (price_jpy p)
    | None => Some (Binary64.of_int 0)
    end.
Proof.
  unfold Binary64._price_score, Binary64.spec_price_score, truthy_int.
  destruct (max_price_jpy self) as [m|]; [|done].
  destruct (m =? 0)%Z; [done|]. cbn [negb default from_option Datatypes.id].
  destruct (Binary64.float_of_int m) as [fm|];
    cbn [mbind option_bind]; [|done].
  destruct (Binary64.float_of_int (price_jpy p)) as [fp|];
    cbn [mbind option_bind]; [|done].
  by rewrite SFmul_comm.
Qed.

Lemma Qlt_bool_true a b : Qlt_bool a b = true <-> (a < b)%Q.
Proof.
  unfold Qlt_bool. rewrite negb_true_iff.
  split.
  - intros H. apply Qnot_le_lt. intros Hle. apply Qle_bool_iff in Hle. congruence.
  - intros H. destruct (Qle_bool b a) eqn:E; [|done].
    apply Qle_bool_iff in E. exfalso. exact (Qlt_not_le _ _ H E).
Qed.

Lemma Qlt_bool_false a b : Qlt_bool a b = false <-> (b <= a)%Q.
Proof.
  unfold Qlt_bool. rewrite negb_false_iff. apply Qle_bool_iff.
Qed.

Lemma py_max_Qmax a b : (py_max a b == Qmax a b)%Q.
Proof.
  unfold py_max. destruct (Qlt_bool a b) eqn:E.
  - apply Qlt_bool_true in E. symmetry. apply Q.max_r. by apply Qlt_le_weak.
  - apply Qlt_bool_false in E. symmetry. by apply Q.max_l.
Qed.

Lemma py_int_quarter m : py_int (inject_Z m * (25 # 100)) = m ÷ 4.
Proof.
  unfold py_int. simpl.
  change (Z.pos (1 * 100)) with (4 * 25).
  rewrite Z.quot_mul_cancel_r by lia. done.
Qed.

(** ** Sorting and slicing *)

Section Sorting.
Context {A : Type} (key : A -> Q).

Lemma insert_desc_perm x l : insert_desc key x l ≡ₚ x :: l.
Proof.
  induction l as [|y l IH]; simpl; [done|].
  destruct (Qlt_bool (key x) (key y)); [|done].
  rewrite IH. apply Permutation_swap.
Qed.

Lemma sorted_desc_perm l : sorted_desc key l ≡ₚ l.
Proof.
  induction l as [|x l IH]; simpl; [done|].
  unfold sorted_desc in *. simpl. by rewrite insert_desc_perm, IH.
Qed.

Lemma insert_desc_sorted x l :
  StronglySorted (desc key) l -> StronglySorted (desc key) (insert_desc key x l).
Proof.
  induction 1 as [|y l Hs IH Hall]; simpl.
  - repeat constructor.
  - destruct (Qlt_bool (key x) (key y)) eqn:E.
    + apply Qlt_bool_true in E. constructor; [done|].
      rewrite insert_desc_perm. constructor; [|done].
      unfold desc. by apply Qlt_le_weak.
    + apply Qlt_bool_false in E. constructor.
      * by constructor.
      * constructor; [done|].
        eapply Forall_impl; [exact Hall|]. unfold desc. intros z Hz.
        by eapply Qle_trans.
Qed.

Lemma sorted_desc_sorted l : StronglySorted (desc key) (sorted_desc key l).
Proof.
  induction l as [|x l IH]; [constructor|].
  unfold sorted_desc in *. simpl. by apply insert_desc_sorted.
Qed.

Lemma strongly_sorted_lookup l i j x y :
  StronglySorted (desc key) l -> (i < j)%nat ->
  l !! i = Some x -> l !! j = Some y -> (key y <= key x)%Q.
Proof.
  intros Hs. revert i j. induction Hs as [|z l Hs IH Hall]; intros i j Hij Hi Hj.
  - done.
  - destruct j as [|j]; [lia|]. destruct i as [|i]; simpl in *.
    + injection Hi as ->. rewrite Forall_forall in Hall.
      apply Hall. by eapply list_elem_of_lookup_2.
    + apply (IH i j); [lia|done|done].
Qed.

Lemma sorted_desc_ahead l i j x y :
  (key y < key x)%Q ->
  sorted_desc key l !! i = Some x -> sorted_desc key l !! j = Some y ->
  (i < j)%nat.
Proof.
  intros Hlt Hi Hj.
  destruct (Nat.lt_trichotomy i j) as [H|[->|H]]; [done| |].
  - rewrite Hi in Hj. injection Hj as ->. by apply Qlt_irrefl in Hlt.
  - pose proof (strongly_sorted_lookup _ _ _ _ _ (sorted_desc_sorted l) H Hj Hi) as Hle.
    exfalso. exact (Qlt_not_le _ _ Hlt Hle).
Qed.

End Sorting.

Lemma slice_to_take {A} n (l : list A) : exists k, slice_to n l = take k l.
Proof. unfold slice_to. destruct (n <? 0); eauto. Qed.

Lemma slice_to_nil {A} n : slice_to n (@nil A) = [].
Proof. destruct (slice_to_take n (@nil A)) as [k ->]. by destruct k. Qed.

Lemma slice_to_elem {A} n (l : list A) x : x ∈ slice_to n l -> x ∈ l.
Proof.
  destruct (slice_to_take n l) as [k ->]. intros H.
  apply list_elem_of_lookup in H as [i Hi].
  apply lookup_take_Some in Hi as [Hi _]. by eapply list_elem_of_lookup_2.
Qed.

Lemma shallow_stage_kept {Exn} lower (self : @RecommendationService Exn)
    tokens raw_items p :
  p ∈ shallow_stage lower self tokens raw_items -> _should_include self p = true.
Proof.
  unfold shallow_stage. intros H%slice_to_elem.
  rewrite sorted_desc_perm in H.
  by apply list_elem_of_In, filter_In in H as [_ H].
Qed.

(** ** The hard filters *)

Lemma tag_filter p :
  truthy_str (item_type p) && negb (bool_decide (item_type p = Some ITEM_TYPE_MERCARI)) = false
  <-> tag_ok p.
Proof.
  unfold tag_ok. destruct (item_type p) as [[|c t]|]; simpl.
  - split; auto.
  - rewrite negb_false_iff, bool_decide_eq_true. split; [auto|].
    intros [H|[H|H]]; congruence.
  - split; auto.
Qed.

(** Claim C4 fails as stated: an item with no item-type tag passes the hard
    filters of the default service. *)
Lemma untagged_item_survives :
  item_type (bare_item None 1000) = None
  /\ _should_include (new_service idle_client None) (bare_item None 1000)
     = true.
Proof. split; reflexivity. Qed.

(** Claim C4, as amended.  An item survives the hard filters only if its
    item-type tag is absent, empty or equal to ITEM_TYPE_MERCARI; an item
    whose tag is present, non-empty and different from ITEM_TYPE_MERCARI is
    dropped by the filter and is not among the scored survivors. *)
Theorem should_include_item_type {Exn} (lower : list N -> list N)
    (self : @RecommendationService Exn) p :
  (_should_include self p = true -> tag_ok p) /\
  (truthy_str (item_type p) = true ->
   item_type p <> Some ITEM_TYPE_MERCARI ->
   _should_include self p = false
   /\ forall tokens raw_items,
        p ∉ shallow_stage lower self tokens raw_items).
Proof.
  split.
  - unfold _should_include.
    destruct (truthy_str (item_type p) && _) eqn:E; [done|].
    intros _. by apply tag_filter.
  - intros Ht Hne.
    assert (Hdrop : _should_include self p = false).
    { unfold _should_include. rewrite Ht. simpl.
      rewrite bool_decide_eq_false_2; done. }
    split; [done|]. intros tokens raw_items Hin.
    apply shallow_stage_kept in Hin. congruence.
Qed.

Lemma should_include_item_type_witness :
  _should_include (new_service idle_client None)
                  (bare_item (Some (lit "ITEM_TYPE_BEYOND")) 1000) = false.
Proof.
  apply (proj2 (should_include_item_type ascii_lower
                  (new_service idle_client None)
                  (bare_item (Some (lit "ITEM_TYPE_BEYOND")) 1000)));
    [reflexivity | vm_compute; discriminate].
Defined.

Lemma should_include_spec {Exn} (self : @RecommendationService Exn) p :
  _should_include self p = true <->
  tag_ok p
  /\ (forall m, max_price_jpy self = Some m -> m <> 0 -> price_jpy p <= m)
  /\ (forall m, max_price_jpy self = Some m -> 10000 <= m ->
        Z.max 500 (m ÷ 4) <= price_jpy p)
  /\ (min_seller_rating self <= rating_or_zero p)%Q.
Proof.
  unfold _should_include. rewrite <- tag_filter, <- Qlt_bool_false.
  rewrite py_int_quarter.
  destruct (truthy_str (item_type p) && _); [intuition discriminate|].
  destruct (Qlt_bool _ _).
  { split; [|intuition discriminate]. by repeat case_match. }
  destruct (max_price_jpy self) as [m|]; simpl; [|intuition discriminate].
  destruct (Z.eqb_spec m 0) as [->|Hm]; simpl.
  { split; [|done]. intros _. repeat split; intros ? [= <-]; lia. }
  destruct (Z.ltb_spec m (price_jpy p)); simpl.
  { split; [done|]. intros (_ & H1 & _). specialize (H1 m eq_refl Hm). lia. }
  destruct (Z.leb_spec 10000 m); simpl.
  - destruct (Z.ltb_spec (price_jpy p) (Z.max 500 (m ÷ 4))); simpl.
    + split; [done|]. intros (_ & _ & H2 & _). specialize (H2 m eq_refl). lia.
    + split; [|done]. intros _. repeat split; intros ? [= <-]; lia.
  - split; [|done]. intros _. repeat split; intros ? [= <-]; lia.
Qed.

(** Claim C5, as amended.  When the global max price [m] is configured and
    at least 10000, the price floor is max(500, m / 4) with the quotient
    truncated to an integer: items priced strictly below it are dropped,
    and an item survives exactly when its tag passes, its price lies
    between the floor and [m], and its rating reaches the minimum. *)
Theorem should_include_price_floor {Exn} (self : @RecommendationService Exn)
    p m :
  max_price_jpy self = Some m -> 10000 <= m ->
  (price_jpy p < Z.max 500 (m / 4) -> _should_include self p = false)
  /\ (_should_include self p = true <->
      tag_ok p /\ Z.max 500 (m / 4) <= price_jpy p <= m
      /\ (min_seller_rating self <= rating_or_zero p)%Q).
Proof.
  intros Hm Hge.
  assert (Hq : m ÷ 4 = m / 4) by (apply Z.quot_div_nonneg; lia).
  assert (Hiff : _should_include self p = true <->
      tag_ok p /\ Z.max 500 (m / 4) <= price_jpy p <= m
      /\ (min_seller_rating self <= rating_or_zero p)%Q).
  { rewrite should_include_spec, Hm, <- Hq. split.
    - intros (Ht & H1 & H2 & Hr). repeat split; try done.
      + by apply H2.
      + apply H1; [done | lia].
    - intros (Ht & [H1 H2] & Hr). repeat split; try done; intros ? [= <-]; lia. }
  split; [|done].
  intros Hlt. apply not_true_is_false. intros E. apply Hiff in E. lia.
Qed.

(** With max price 20000 the floor is 5000: 1000 JPY is excluded, 6000 JPY
    is retained. *)
Lemma should_include_price_floor_witness :
  _should_include (budget_service 20000) (listing 1000) = false
  /\ _should_include (budget_service 20000) (listing 6000) = true.
Proof.
  assert (H20 : 10000 <= 20000) by lia.
  split.
  - apply (proj1 (should_include_price_floor (budget_service 20000) (listing 1000) 20000 eq_refl H20)).
    vm_compute. reflexivity.
  - apply (proj2 (should_include_price_floor (budget_service 20000) (listing 6000) 20000 eq_refl H20)).
    split; [right; right; reflexivity|].
    split; [split; vm_compute; discriminate|].
    vm_compute. discriminate.
Defined.

(** Claim C5 fails as stated: with max price 10001 the specification's
    floor is 2500.25, yet an item priced 2500 is retained. *)
Lemma price_floor_truncated :
  (inject_Z 2500 < spec_price_floor 10001)%Q /\
  _should_include (budget_service 10001) (listing 2500) = true.
Proof. split; [|reflexivity]. vm_compute. reflexivity. Qed.

Lemma price_score_spec {Exn} (self : @RecommendationService Exn) p m :
  max_price_jpy self = Some m -> m <> 0 ->
  (_price_score self p == spec_price_score m (price_jpy p))%Q.
Proof.
  intros Hm Hne. unfold _price_score, spec_price_score. rewrite Hm.
  unfold truthy_int. destruct (Z.eqb_spec m 0); [done|].
  cbn [negb default from_option].
  assert (Hc : (inject_Z m * (7 # 10) == (7 # 10) * inject_Z m)%Q)
    by apply Qmult_comm.
  rewrite !py_max_Qmax, Hc. reflexivity.
Qed.

Lemma price_score_exact {Exn} (self : @RecommendationService Exn) p :
  (_price_score self p ==
   match max_price_jpy self with
   | Some m => if (m =? 0)%Z then 0 else spec_price_score m (price_jpy p)
   | None => 0
   end)%Q.
Proof.
  destruct (max_price_jpy self) as [m|] eqn:Hm.
  - destruct (Z.eqb_spec m 0) as [->|Hne].
    + unfold _price_score. rewrite Hm. reflexivity.
    + apply (price_score_spec self p m Hm Hne).
  - unfold _price_score. rewrite Hm. reflexivity.
Qed.

(** Claim C6, as amended.  The price score is 0.0 when no global max price
    is configured or the configured value is 0, and otherwise it is the
    double that max(0, 1 - |price - target| / target) with
    target = max(1, 0.7 * max) gives when every operation is the binary64
    one (both sides raise for an integer beyond the double range).  With
    max price 10000 an item priced 7000 scores 1.0 and an item priced 14000
    scores 0.0; the rounding shows in other places: with max price 1300 an
    item priced 910 scores 0.9999999999999999. *)
Theorem price_score_formula {Exn} (self : @RecommendationService Exn) p :
  Binary64._price_score self p
  = match max_price_jpy self with
    | Some m =>
        if (m =? 0)%Z then Some (Binary64.of_int 0)
        else Binary64.spec_price_score m (price_jpy p)
    | None => Some (Binary64.of_int 0)
    end
  /\ Binary64._price_score (budget_service 10000) (listing 7000)
     = Some (Binary64.of_int 1)
  /\ Binary64._price_score (budget_service 10000) (listing 14000)
     = Some (Binary64.of_int 0)
  /\ Binary64._price_score (budget_service 1300) (listing 910)
     = Some (S754_finite false 9007199254740991 (-53)).
Proof.
  split; [apply price_score_binary64|].
  repeat split; vm_compute; reflexivity.
Qed.

(** Claim C6 fails as stated: with the max price configured as 0 the
    specification's formula gives 1 for an item priced 1, the code 0, in
    binary64 as in exact arithmetic. *)
Lemma price_score_zero_budget :
  max_price_jpy (budget_service 0) = Some 0
  /\ Binary64._price_score (budget_service 0) (listing 1)
     = Some (Binary64.of_int 0)
  /\ Binary64.spec_price_score 0 1 = Some (Binary64.of_int 1)
  /\ ~ (_price_score (budget_service 0) (listing 1) == spec_price_score 0 1)%Q.
Proof.
  split; [reflexivity|]. split; [reflexivity|].
  split; [vm_compute; reflexivity|]. vm_compute. discriminate.
Qed.

(** ** The tokens *)

Lemma flush_tokens cur t :
  Forall (fun c => token_char c = true) cur ->
  t ∈ flush cur -> t = rev cur /\ token_like t.
Proof.
  intros Hcur. destruct cur as [|c0 cur]; [by intros ?%elem_of_nil|].
  unfold flush. intros ->%list_elem_of_singleton. split; [done|]. split.
  - simpl. by destruct (rev cur).
  - by apply Forall_rev.
Qed.

Lemma findall_tokens cur s t :
  Forall (fun c => token_char c = true) cur ->
  t ∈ findall cur s ->
  token_like t /\ exists pre post, rev cur ++ s = pre ++ t ++ post.
Proof.
  revert cur. induction s as [|c s IH]; intros cur Hcur; simpl.
  - intros [-> Hl]%flush_tokens; [|done]. split; [done|].
    exists [], []. simpl. by rewrite !app_nil_r.
  - destruct (token_char c) eqn:Hc.
    + intros Ht.
      assert (Hcur' : Forall (fun c => token_char c = true) (c :: cur))
        by by constructor.
      destruct (IH (c :: cur) Hcur' Ht) as [Hl (pre & post & Heq)].
      split; [done|]. exists pre, post. rewrite <- Heq. simpl.
      by rewrite <- app_assoc.
    + intros [Ht|Ht]%elem_of_app.
      * apply flush_tokens in Ht as [-> Hl]; [|done]. split; [done|].
        by exists [], (c :: s).
      * destruct (IH [] (Forall_nil_2 _) Ht) as [Hl (pre & post & Heq)].
        split; [done|]. exists (rev cur ++ c :: pre), post.
        simpl in Heq. rewrite Heq. by rewrite <- app_assoc.
Qed.

Lemma uniq_spec (l : list (list N)) :
  NoDup (foldl uniq_step ([], ∅) l).1
  /\ (forall t, t ∈ (foldl uniq_step ([], ∅) l).2
                <-> t ∈ (foldl uniq_step ([], ∅) l).1)
  /\ (forall t, t ∈ (foldl uniq_step ([], ∅) l).1 <-> t ∈ l).
Proof.
  induction l as [|x l IH] using rev_ind.
  - simpl. split; [constructor|]. split; intros t; split; set_solver.
  - rewrite foldl_app. simpl. destruct IH as (Hnd & Hset & Hel).
    set (st := foldl uniq_step ([], ∅) l) in *.
    unfold uniq_step. case_decide as Hin.
    + split; [done|]. split; [done|]. intros t. rewrite Hel, elem_of_app.
      split; [by left|]. intros [?|Hx]; [done|].
      apply list_elem_of_singleton in Hx as ->. by apply Hel, Hset.
    + simpl. split; [|split].
      * apply NoDup_app. split; [done|]. split; [|apply NoDup_singleton].
        intros t Ht ->%list_elem_of_singleton. by apply Hin, Hset.
      * intros t. rewrite elem_of_union, elem_of_singleton, elem_of_app,
          list_elem_of_singleton, Hset. tauto.
      * intros t. rewrite !elem_of_app, Hel. tauto.
Qed.

Lemma tokenize_nonempty lower text t :
  t ∈ tokenize lower text -> t <> [].
Proof.
  unfold tokenize.
  destruct (uniq_spec (findall [] (lower text))) as (_ & _ & Hel).
  intros Ht%Hel.
  by destruct (findall_tokens [] _ t (Forall_nil_2 _) Ht) as [[? ?] _].
Qed.

Lemma filter_nonempty_tokens (tokens : list (list N)) nm :
  (forall t, t ∈ tokens -> t <> []) ->
  List.filter (fun t => negb (bool_decide (t = [])) && contains nm t) tokens
  = List.filter (contains nm) tokens.
Proof.
  induction tokens as [|t ts IH]; intros H; [done|]. simpl.
  rewrite IH by (intros u Hu; apply H; by right).
  assert (Ht : t <> []) by (apply H; by left).
  by rewrite bool_decide_eq_false_2.
Qed.

Lemma relevance_binary64 lower tokens p :
  (forall t, t ∈ tokens -> t <> []) ->
  Binary64._relevance_score lower tokens p
  = Binary64.spec_relevance tokens (lower (default [] (name p))).
Proof.
  intros H. unfold Binary64._relevance_score, Binary64.spec_relevance.
  destruct tokens as [|t ts]; [done|].
  rewrite filter_nonempty_tokens by done.
  replace (Z.max (Z.of_nat (length (t :: ts))) 1)
    with (Z.of_nat (length (t :: ts))) by (simpl length; lia).
  done.
Qed.

Lemma relevance_exact lower tokens p :
  (forall t, t ∈ tokens -> t <> []) ->
  _relevance_score lower tokens p
  = spec_relevance tokens (lower (default [] (name p))).
Proof.
  intros H. unfold _relevance_score, spec_relevance.
  destruct tokens as [|t ts]; [done|].
  rewrite filter_nonempty_tokens by done.
  replace (Z.max (Z.of_nat (length (t :: ts))) 1)
    with (Z.of_nat (length (t :: ts))) by (simpl length; lia).
  done.
Qed.

(** ** The deep score *)

(** Claim C7.  The deep score of a full item is the score of the shallow
    stage recomputed on its merged fields,
    4.0 x relevance + 1.2 x rating + 1.3 x price score, plus 0.5 exactly
    when shipping-fee-included is true.  The first part states it for the
    double the code computes, every operation the binary64 one; the second
    for the exact value that the order statements compare.  The third
    part: two enriched items with equal base scores, one with the fee
    included and one without, are ranked with the former strictly ahead,
    and the latter is in the final ranking only if the former is. *)
Theorem deep_score_shipping_bonus {Exn} lower
    (self : @RecommendationService Exn) tokens :
  (forall text p,
     Binary64._deep_score lower self (tokenize lower text) p
     = price_score ← match max_price_jpy self with
                     | Some m =>
                         if (m =? 0)%Z then Some (Binary64.of_int 0)
                         else Binary64.spec_price_score
                                m (price_jpy (shallow p))
                     | None => Some (Binary64.of_int 0)
                     end;
       Some (SFadd Binary64.prec Binary64.emax
               (Binary64.spec_score
                  (Binary64.spec_relevance
                     (tokenize lower text)
                     (lower (default [] (name (shallow p)))))
                  (match seller_rating (shallow p) with
                   | Some r => Binary64.of_Q r
                   | None => Binary64.of_int 0
                   end)
                  price_score)
               (if bool_decide (shipping_fee_included p = Some true)
                then Binary64.of_ratio 5 10 else Binary64.of_int 0)))
  /\ (forall text p,
        (_deep_score lower self (tokenize lower text) p ==
         spec_score
           (spec_relevance (tokenize lower text)
                           (lower (default [] (name (shallow p)))))
           (match seller_rating (shallow p) with
            | Some r => r
            | None => 0
            end)
           (match max_price_jpy self with
            | Some m =>
                if (m =? 0)%Z then 0
                else spec_price_score m (price_jpy (shallow p))
            | None => 0
            end)
         + (if bool_decide (shipping_fee_included p = Some true)
            then 5 # 10 else 0))%Q)
  /\ (forall enriched p q,
        p ∈ enriched -> q ∈ enriched ->
        shipping_fee_included p = Some true ->
        shipping_fee_included q = Some false ->
        (_shallow_score lower self tokens (shallow p) ==
         _shallow_score lower self tokens (shallow q))%Q ->
        (forall i j,
           final_rank lower self tokens enriched !! i = Some p ->
           final_rank lower self tokens enriched !! j = Some q -> (i < j)%nat)
        /\ (q ∈ final_rank lower self tokens enriched ->
            p ∈ final_rank lower self tokens enriched)).
Proof.
  split; [|split].
  - intros text p. unfold Binary64._deep_score, Binary64._shallow_score.
    rewrite price_score_binary64,
      (relevance_binary64 lower _ _ (tokenize_nonempty lower text)).
    destruct (match max_price_jpy self with Some _ => _ | None => _ end)
      as [ps|]; cbn [mbind option_bind]; [|done].
    unfold Binary64.spec_score, Binary64.rating_or_zero,
      Binary64.shipping_bonus.
    rewrite !(SFmul_comm _ _ _ (Binary64.of_int 4)),
      !(SFmul_comm _ _ _ (Binary64.of_ratio 12 10)),
      !(SFmul_comm _ _ _ (Binary64.of_ratio 13 10)).
    case_bool_decide as Hs.
    + by rewrite Hs.
    + by destruct (shipping_fee_included p) as [[]|].
  - intros text p. unfold _deep_score, _shallow_score, spec_score.
    rewrite (relevance_exact lower _ _ (tokenize_nonempty lower text)).
    rewrite (price_score_exact self (shallow p)).
    unfold rating_or_zero, shipping_bonus.
    case_bool_decide as Hs.
    + rewrite Hs. ring.
    + destruct (shipping_fee_included p) as [[]|]; [done|ring|ring].
  - intros enriched p q Hp Hq Sp Sq Hbase.
    assert (Hlt : (_deep_score lower self tokens q < _deep_score lower self tokens p)%Q).
    { unfold _deep_score, shipping_bonus. rewrite Sp, Sq, Hbase.
      rewrite Qplus_0_r. rewrite <- (Qplus_0_r (_shallow_score _ _ _ _)) at 1.
      apply Qplus_lt_r. reflexivity. }
    unfold final_rank.
    destruct (slice_to_take (max_return self)
                (sorted_desc (_deep_score lower self tokens) enriched)) as [k ->].
    split.
    + intros i j Hi Hj.
      apply lookup_take_Some in Hi as [Hi _]. apply lookup_take_Some in Hj as [Hj _].
      by eapply sorted_desc_ahead.
    + intros Hin. apply list_elem_of_lookup in Hin as [j Hj].
      apply lookup_take_Some in Hj as [Hj Hjk].
      assert (Hps : p ∈ sorted_desc (_deep_score lower self tokens) enriched)
        by by rewrite sorted_desc_perm.
      apply list_elem_of_lookup in Hps as [i Hi].
      pose proof (sorted_desc_ahead _ _ _ _ _ _ Hlt Hi Hj).
      apply (list_elem_of_lookup_2 _ i). apply lookup_take_Some. split; [done|lia].
Qed.

Lemma deep_score_shipping_bonus_witness :
  final_rank ascii_lower (budget_service 10000) []
    [full_of (listing 7000) false; full_of (listing 7000) true]
  = [full_of (listing 7000) true; full_of (listing 7000) false]
  /\ (0 < 1)%nat.
Proof.
  split; [reflexivity|].
  refine (proj1 (proj2 (proj2 (deep_score_shipping_bonus ascii_lower
                                 (budget_service 10000) []))
                   [full_of (listing 7000) false; full_of (listing 7000) true]
                   (full_of (listing 7000) true) (full_of (listing 7000) false)
                   _ _ eq_refl eq_refl _) 0%nat 1%nat eq_refl eq_refl).
  - apply list_elem_of_further, list_elem_of_here.
  - apply list_elem_of_here.
  - reflexivity.
Defined.

(** ** Pooling and deduplication *)

Lemma elem_of_snoc_l {A} (l : list A) x z : z ∈ l -> z ∈ l ++ [x].
Proof. intros. apply elem_of_app. by left. Qed.

Lemma elem_of_snoc_r {A} (l : list A) x : x ∈ l ++ [x].
Proof. apply elem_of_app. right. by apply list_elem_of_singleton. Qed.

Lemma foldl_concat {A B} (f : A -> B -> A) (a : A) (ls : list (list B)) :
  foldl (fun st l => foldl f st l) a ls = foldl f a (concat ls).
Proof.
  revert a. induction ls as [|l ls IH]; intros a; simpl; [done|].
  by rewrite foldl_app, IH.
Qed.

Lemma pool_flat results : pool results = (pool_state (concat results)).1.
Proof. unfold pool, pool_state. by rewrite foldl_concat. Qed.

Lemma pool_state_snoc flat x :
  pool_state (flat ++ [x]) = pool_step (pool_state flat) x.
Proof. unfold pool_state. by rewrite foldl_app. Qed.

Lemma seen_spec flat i :
  i ∈ (pool_state flat).2 <-> i <> [] /\ exists z, z ∈ flat /\ id_ z = Some i.
Proof.
  induction flat as [|x flat IH] using rev_ind.
  - unfold pool_state; simpl. split; [set_solver|]. intros (_ & z & Hz & _). set_solver.
  - rewrite pool_state_snoc. unfold pool_step.
    destruct (id_ x) as [[|c j]|] eqn:Hx.
    + rewrite IH. split; intros (Hne & z & Hz & Hi); (split; [done|]); exists z.
      * split; [by apply elem_of_snoc_l|done].
      * split; [|done]. apply elem_of_app in Hz as [Hz|Hz]; [done|].
        apply list_elem_of_singleton in Hz as ->. congruence.
    + case_decide as Hin; simpl.
      * rewrite IH. split; intros (Hne & z & Hz & Hi).
        -- split; [done|]. exists z. split; [by apply elem_of_snoc_l|done].
        -- apply elem_of_app in Hz as [Hz|Hz]; [by eauto|].
           apply list_elem_of_singleton in Hz as ->.
           assert (i = c :: j) as -> by congruence. by apply IH.
      * rewrite elem_of_union, elem_of_singleton, IH. split.
        -- intros [->|(Hne & z & Hz & Hi)].
           ++ split; [done|]. exists x. split; [by apply elem_of_snoc_r|done].
           ++ split; [done|]. exists z. split; [by apply elem_of_snoc_l|done].
        -- intros (Hne & z & Hz & Hi).
           apply elem_of_app in Hz as [Hz|Hz]; [by eauto|].
           apply list_elem_of_singleton in Hz as ->. left. congruence.
    + rewrite IH. split; intros (Hne & z & Hz & Hi); (split; [done|]); exists z.
      * split; [by apply elem_of_snoc_l|done].
      * split; [|done]. apply elem_of_app in Hz as [Hz|Hz]; [done|].
        apply list_elem_of_singleton in Hz as ->. congruence.
Qed.

Lemma pool_step_cases flat x :
  (fresh flat x /\ (pool_state (flat ++ [x])).1 = (pool_state flat).1 ++ [x])
  \/ ((truthy_str (id_ x) = true -> exists z, z ∈ flat /\ id_ z = id_ x)
      /\ (pool_state (flat ++ [x])).1 = (pool_state flat).1).
Proof.
  rewrite pool_state_snoc. unfold pool_step, fresh.
  destruct (id_ x) as [[|c j]|] eqn:Hx; simpl.
  - by right.
  - case_decide as Hin.
    + right. split; [|done]. intros _.
      by apply seen_spec in Hin as (_ & z & Hz & Hi); eauto.
    + left. split; [|done]. split; [done|]. intros z Hz Hi.
      apply Hin, seen_spec. split; [done|]. eauto.
  - by right.
Qed.

Lemma first_seen_snoc flat x y : first_seen flat y -> first_seen (flat ++ [x]) y.
Proof.
  intros (pre & post & -> & Hpre). exists pre, (post ++ [x]).
  split; [|done]. by rewrite <- app_assoc.
Qed.

Lemma pooled_first_seen flat y :
  y ∈ (pool_state flat).1 -> truthy_str (id_ y) = true /\ first_seen flat y.
Proof.
  induction flat as [|x flat IH] using rev_ind.
  - unfold pool_state; simpl. by intros ?%elem_of_nil.
  - destruct (pool_step_cases flat x) as [[[Ht Hf] ->]|[_ ->]].
    + intros [Hy|Hy]%elem_of_app.
      * destruct (IH Hy) as [? ?]. split; [done|]. by apply first_seen_snoc.
      * apply list_elem_of_singleton in Hy as ->. split; [done|].
        exists flat, []. done.
    + intros Hy. destruct (IH Hy) as [? ?]. split; [done|]. by apply first_seen_snoc.
Qed.

Lemma first_seen_elem flat y : first_seen flat y -> y ∈ flat.
Proof.
  intros (pre & post & -> & _). apply elem_of_app. right. apply list_elem_of_here.
Qed.

Lemma pooled_covers flat x :
  x ∈ flat -> truthy_str (id_ x) = true ->
  exists y, y ∈ (pool_state flat).1 /\ id_ y = id_ x.
Proof.
  revert x. induction flat as [|x' flat IH] using rev_ind; intros x.
  - by intros ?%elem_of_nil.
  - intros Hx Ht.
    assert (Hold : (exists z, z ∈ flat /\ id_ z = id_ x) ->
                   exists y, y ∈ (pool_state (flat ++ [x'])).1 /\ id_ y = id_ x).
    { intros (z & Hz & Hi). destruct (IH z Hz) as (y & Hy & Hyi); [congruence|].
      exists y. split; [|congruence].
      destruct (pool_step_cases flat x') as [[_ ->]|[_ ->]]; [|done].
      by apply elem_of_snoc_l. }
    apply elem_of_app in Hx as [Hx|Hx]; [by eauto|].
    apply list_elem_of_singleton in Hx as ->.
    destruct (pool_step_cases flat x') as [[_ ->]|[Hsome _]].
    + exists x'. split; [apply elem_of_snoc_r|done].
    + by apply Hold, Hsome.
Qed.

Lemma pooled_nodup flat : NoDup (map id_ (pool_state flat).1).
Proof.
  induction flat as [|x flat IH] using rev_ind.
  - unfold pool_state; simpl. constructor.
  - destruct (pool_step_cases flat x) as [[[Ht Hf] ->]|[_ ->]]; [|done].
    rewrite map_app. apply NoDup_app. split; [done|]. split.
    + intros i Hi Hx. simpl in Hx. apply list_elem_of_singleton in Hx as ->.
      apply list_elem_of_fmap in Hi as (y & Hyi & Hy).
      apply pooled_first_seen in Hy as [_ Hy%first_seen_elem].
      by apply (Hf y).
    + simpl. apply NoDup_singleton.
Qed.

Lemma seen_before_snoc flat x a b : seen_before flat a b -> seen_before (flat ++ [x]) a b.
Proof.
  intros (f1 & f2 & f3 & -> & H1 & H2). exists f1, f2, (f3 ++ [x]).
  split; [|done]. rewrite <- app_assoc. simpl. by rewrite <- app_assoc.
Qed.

Lemma pooled_order flat l1 a l2 b l3 :
  (pool_state flat).1 = l1 ++ a :: l2 ++ b :: l3 -> seen_before flat a b.
Proof.
  revert l3. induction flat as [|x flat IH] using rev_ind; intros l3.
  - unfold pool_state; simpl. by destruct l1.
  - destruct (pool_step_cases flat x) as [[[Ht Hf] ->]|[_ ->]].
    + destruct l3 as [|c l3 _] using rev_ind.
      * intros Heq.
        replace (l1 ++ a :: l2 ++ [b]) with ((l1 ++ a :: l2) ++ [b]) in Heq
          by (by rewrite <- app_assoc).
        apply app_inj_tail in Heq as [Heq <-].
        assert (Ha : a ∈ (pool_state flat).1).
        { rewrite Heq. apply elem_of_app. right. apply list_elem_of_here. }
        apply pooled_first_seen in Ha as (_ & pre & post & -> & Hpre).
        exists pre, post, []. split; [by rewrite <- app_assoc|]. split; [done|].
        exact Hf.
      * intros Heq.
        replace (l1 ++ a :: l2 ++ b :: l3 ++ [c])
          with ((l1 ++ a :: l2 ++ b :: l3) ++ [c]) in Heq
          by (rewrite <- app_assoc; simpl; by rewrite <- app_assoc).
        apply app_inj_tail in Heq as [Heq _].
        apply seen_before_snoc. by apply (IH l3).
    + intros Heq. apply seen_before_snoc. by apply (IH l3).
Qed.

(** Claim C3, as amended.  The pool holds no identifier twice; every
    non-empty identifier of the raw results is in the pool; every pooled
    item has a non-empty identifier and is the first item of the raw
    results (candidate order, then order within a candidate) carrying it;
    and the pool lists the items in the order in which their identifiers
    are first met.  Items whose identifier is missing or empty are left
    out of the pool. *)
Theorem pool_first_seen_dedup (results : list (list RawItem)) :
  NoDup (map id_ (pool results))
  /\ (forall x, x ∈ concat results -> truthy_str (id_ x) = true ->
               exists y, y ∈ pool results /\ id_ y = id_ x)
  /\ (forall y, y ∈ pool results ->
               truthy_str (id_ y) = true /\ first_seen (concat results) y)
  /\ (forall l1 a l2 b l3,
        pool results = l1 ++ a :: l2 ++ b :: l3 ->
        seen_before (concat results) a b)
  /\ (forall x, x ∈ concat results -> truthy_str (id_ x) = false ->
               forall y, y ∈ pool results -> id_ y <> id_ x).
Proof.
  rewrite pool_flat. split; [apply pooled_nodup|].
  split; [apply pooled_covers|]. split; [apply pooled_first_seen|].
  split; [apply pooled_order|].
  intros x _ Hx y [Hy _]%pooled_first_seen Heq. congruence.
Qed.

(** Claim C3 fails as stated: an item whose identifier is the empty string
    is in the raw results, and no pooled item carries its identifier. *)
Lemma pool_drops_empty_identifier :
  let x := {| id_ := Some []; raw_name := Some (lit "PS5 console");
              price := 30000; raw_item_type := Some ITEM_TYPE_MERCARI;
              created := None |} in
  x ∈ concat [[found "m1" 100; x]]
  /\ ~ exists y, y ∈ pool [[found "m1" 100; x]] /\ id_ y = id_ x.
Proof.
  split.
  - simpl. apply list_elem_of_further, list_elem_of_here.
  - intros (y & Hy & Hid).
    change (pool _) with [found "m1" 100] in Hy.
    apply list_elem_of_singleton in Hy as ->. discriminate.
Qed.

Lemma pool_first_seen_dedup_witness :
  pool [[found "m1" 100; found "m2" 200]; [found "m2" 999; found "m3" 300]]
  = [found "m1" 100; found "m2" 200; found "m3" 300]
  /\ first_seen
       (concat [[found "m1" 100; found "m2" 200];
                [found "m2" 999; found "m3" 300]])
       (found "m2" 200).
Proof.
  split; [reflexivity|].
  apply (proj1 (proj2 (proj2 (pool_first_seen_dedup
           [[found "m1" 100; found "m2" 200];
            [found "m2" 999; found "m3" 300]])))).
  change (pool _) with [found "m1" 100; found "m2" 200; found "m3" 300].
  apply list_elem_of_further, list_elem_of_here.
Defined.

(** ** Joining concurrent calls *)

Section Gather.
Context {E A : Type}.
Implicit Types (outs : list (Outcome E A)) (order : list nat).

Lemma first_raised_some outs order e :
  first_raised outs order = Some e -> exists i, outs !! i = Some (Raised e).
Proof.
  induction order as [|i order IH]; simpl; [done|].
  destruct (outs !! i) as [[a|e']|] eqn:Hi; [done| |done].
  intros [= ->]. eauto.
Qed.

Lemma first_raised_app_none outs o1 o2 :
  first_raised outs (o1 ++ o2) = None ->
  first_raised outs o2 = None.
Proof.
  induction o1 as [|i o1 IH]; simpl; [done|].
  destruct (outs !! i) as [[a|e']|]; done.
Qed.

Lemma first_raised_none outs order i :
  first_raised outs order = None -> i ∈ order ->
  forall e, outs !! i <> Some (Raised e).
Proof.
  induction order as [|j order IH]; simpl; [by intros _ ?%elem_of_nil|].
  intros Hn Hi e He.
  destruct (outs !! j) as [[a|e']|] eqn:Hj; [|done|].
  - apply elem_of_cons in Hi as [->|Hi]; [congruence|]. by eapply IH.
  - apply elem_of_cons in Hi as [->|Hi]; [congruence|]. by eapply IH.
Qed.

(** A failing awaitable makes [gather] raise, and what it raises is the
    exception of one of the awaitables. *)
Lemma gather_raises outs order i e :
  outs !! i = Some (Raised e) ->
  exists e' j, gather order outs = Raised e' /\ outs !! j = Some (Raised e').
Proof.
  intros Hi. unfold gather.
  destruct (first_raised outs (order ++ seq 0 (length outs))) as [e'|] eqn:Hf.
  - apply first_raised_some in Hf as [j Hj]. eauto.
  - exfalso. apply first_raised_app_none in Hf.
    apply (first_raised_none _ _ i Hf) with e; [|done].
    apply elem_of_seq. apply lookup_lt_Some in Hi. lia.
Qed.

Lemma gather_raised_inv outs order e :
  gather order outs = Raised e -> exists j, outs !! j = Some (Raised e).
Proof.
  unfold gather.
  destruct (first_raised _ _) as [e'|] eqn:Hf; [|done].
  intros [= ->]. by eapply first_raised_some.
Qed.

Lemma first_raised_all_returned outs order :
  Forall (fun o => exists a, o = Returned a) outs ->
  first_raised outs order = None.
Proof.
  intros Hall. induction order as [|i order IH]; simpl; [done|].
  destruct (outs !! i) as [[a|e]|] eqn:Hi; [done| |done].
  rewrite Forall_forall in Hall.
  destruct (Hall (Raised e)) as [a Ha]; [|done].
  by eapply list_elem_of_lookup_2.
Qed.

(** When every awaitable returns, [gather] returns the results in
    argument order, whatever the completion order. *)
Lemma gather_returns {B} (f : B -> A) (xs : list B) order :
  gather (E:=E) order (map (fun x => Returned (f x)) xs) = Returned (map f xs).
Proof.
  unfold gather. rewrite first_raised_all_returned.
  - f_equal. induction xs as [|x xs IH]; [done|]. simpl. f_equal. exact IH.
  - apply Forall_forall. intros o Ho. apply list_elem_of_fmap in Ho as (x & -> & _). eauto.
Qed.

End Gather.

(** ** The pipeline *)

Section Recommend.
Variable lower : list N -> list N.
Context {Exn : Type}.
Implicit Types (self : @RecommendationService Exn) (reqs : list SearchRequest).

Lemma lookup_map_Some {A B} (f : A -> B) (l : list A) i y :
  map f l !! i = Some y -> exists x, l !! i = Some x /\ y = f x.
Proof.
  revert i. induction l as [|x l IH]; intros [|i]; simpl; try done.
  - intros [= <-]. eauto.
  - apply IH.
Qed.

Lemma lookup_map {A B} (f : A -> B) (l : list A) i x :
  l !! i = Some x -> map f l !! i = Some (f x).
Proof.
  revert i. induction l as [|z l IH]; intros [|i]; simpl; try done.
  - by intros [= <-].
  - apply IH.
Qed.

(** Claim C9.  With an empty candidate list [recommend] returns the empty
    list, raises nothing and starts no call on the client: the call log is
    empty. *)
Theorem recommend_no_candidates sched self uq :
  recommend lower sched self [] uq = ([], Returned []).
Proof. reflexivity. Qed.

(** Claim C1.  If the search of any candidate raises, [recommend] raises:
    the error is the one raised by the search of some candidate (that of
    the failing candidate when it is the only one to fail), no ranking is
    returned, and nothing beyond the searches is started, whatever the
    other searches returned and in whatever order they completed. *)
Theorem recommend_fail_fast sched self reqs uq r e :
  r ∈ reqs ->
  search (client self) r (max_shallow self) = Raised e ->
  exists e' r',
    (recommend lower sched self reqs uq).2 = Raised e'
    /\ r' ∈ reqs
    /\ search (client self) r' (max_shallow self) = Raised e'
    /\ (recommend lower sched self reqs uq).1 = search_calls self reqs
    /\ ((forall r'' e'', r'' ∈ reqs ->
          search (client self) r'' (max_shallow self) = Raised e'' -> r'' = r) ->
        e' = e).
Proof.
  intros Hr He.
  apply list_elem_of_lookup in Hr as [i Hi].
  pose proof (lookup_map (fun req => search (client self) req (max_shallow self))
                _ _ _ Hi) as Hout. simpl in Hout. rewrite He in Hout.
  destruct (gather_raises _ (search_order sched) _ _ Hout) as (e' & j & Hg & Hj).
  apply lookup_map_Some in Hj as (r' & Hr' & Her').
  exists e', r'. unfold recommend.
  destruct reqs as [|r0 reqs]; [done|].
  assert (Hin : r' ∈ r0 :: reqs) by by eapply list_elem_of_lookup_2.
  rewrite Hg. simpl. repeat split; try done.
  intros Honly. rewrite (Honly r' e' Hin (eq_sym Her')) in Her'. congruence.
Qed.

(** *** The pipeline once every search has returned *)

Lemma gather_searches sched self reqs results :
  Forall2 (fun r res => search (client self) r (max_shallow self) = Returned res)
          reqs results ->
  gather (search_order sched)
         (map (fun req => search (client self) req (max_shallow self)) reqs)
  = Returned results.
Proof.
  intros HF.
  assert (Hmap : map (fun req => search (client self) req (max_shallow self)) reqs
                 = map (fun res => Returned res) results).
  { induction HF as [|r res reqs results Hr _ IH]; [done|]. simpl. by rewrite Hr, IH. }
  rewrite Hmap, (gather_returns (fun res => res)). by rewrite map_id.
Qed.

Lemma slice_to_map {A B} (f : A -> B) n (l : list A) :
  slice_to n (map f l) = map f (slice_to n l).
Proof. unfold slice_to. rewrite length_map. destruct (n <? 0); apply firstn_map. Qed.

Lemma filter_map {A B} (f : A -> B) (p : B -> bool) (l : list A) :
  List.filter p (map f l) = map f (List.filter (fun x => p (f x)) l).
Proof.
  induction l as [|x l IH]; [done|]. simpl.
  destruct (p (f x)); simpl; by rewrite IH.
Qed.

Lemma insert_desc_map {A B} (f : A -> B) key x (l : list A) :
  insert_desc key (f x) (map f l) = map f (insert_desc (fun a => key (f a)) x l).
Proof.
  induction l as [|y l IH]; [done|]. simpl.
  destruct (Qlt_bool (key (f x)) (key (f y))); simpl; [by rewrite IH|done].
Qed.

Lemma sorted_desc_map {A B} (f : A -> B) key (l : list A) :
  sorted_desc key (map f l) = map f (sorted_desc (fun a => key (f a)) l).
Proof.
  induction l as [|x l IH]; [done|].
  unfold sorted_desc in *. simpl. by rewrite IH, insert_desc_map.
Qed.

Lemma shallow_stage_survivors self tokens raw_items :
  shallow_stage lower self tokens raw_items
  = map _parse_shallow (survivors lower self tokens raw_items).
Proof.
  unfold shallow_stage, survivors.
  by rewrite filter_map, sorted_desc_map, slice_to_map.
Qed.

Lemma survivors_pooled self tokens raw_items raw :
  raw ∈ survivors lower self tokens raw_items -> raw ∈ raw_items.
Proof.
  unfold survivors. intros H%slice_to_elem.
  rewrite sorted_desc_perm in H.
  apply list_elem_of_In, filter_In in H as [H _]. by apply list_elem_of_In.
Qed.

Lemma index_by_id_other (l : list RawItem)
    (m : gmap (option (list N)) RawItem) k :
  k ∉ map id_ l -> foldl (fun m it => <[id_ it := it]> m) m l !! k = m !! k.
Proof.
  revert m. induction l as [|x l IH]; intros m Hk; simpl; [done|].
  rewrite IH.
  - apply lookup_insert_ne. intros Heq. apply Hk. rewrite <- Heq. simpl.
    apply list_elem_of_here.
  - intros H. apply Hk. simpl. by apply list_elem_of_further.
Qed.

Lemma index_by_id_lookup (l : list RawItem) x :
  NoDup (map id_ l) -> x ∈ l -> index_by_id l !! id_ x = Some x.
Proof.
  unfold index_by_id. generalize (∅ : gmap (option (list N)) RawItem).
  induction l as [|y l IH]; intros m Hnd Hx; [by apply elem_of_nil in Hx|].
  simpl in *. apply NoDup_cons in Hnd as [Hy Hnd].
  apply elem_of_cons in Hx as [->|Hx].
  - rewrite index_by_id_other by done. apply lookup_insert_eq.
  - by apply IH.
Qed.

Lemma to_enrich_survivors (raw_items raws : list RawItem) :
  NoDup (map id_ raw_items) ->
  (forall raw, raw ∈ raws -> raw ∈ raw_items) ->
  omap (fun p => index_by_id raw_items !! id p) (map _parse_shallow raws) = raws.
Proof.
  intros Hnd. induction raws as [|raw raws IH]; intros Hsub; [done|].
  simpl. change (id (_parse_shallow raw)) with (id_ raw).
  rewrite (index_by_id_lookup _ raw Hnd) by (apply Hsub, list_elem_of_here).
  f_equal. apply IH. intros z Hz. by apply Hsub, list_elem_of_further.
Qed.

Lemma merge_stage_survivors (api : @Mercapi Exn) (raws : list RawItem) :
  merge_stage
    (map (fun raw => match full_item api raw with
                     | Returned full => full
                     | Raised _ => None
                     end) raws)
    (map _parse_shallow raws)
  = omap (enriched_product api) raws.
Proof.
  unfold merge_stage, enriched_product.
  induction raws as [|raw raws IH]; [done|]. simpl.
  destruct (full_item api raw) as [[detail|]|e]; simpl; [f_equal| |]; exact IH.
Qed.

Lemma gather_enrich (api : @Mercapi Exn) order (raws : list RawItem) :
  gather order (map (enrich_item (MercapiClient api)) raws)
  = Returned (map (fun raw => match full_item api raw with
                              | Returned full => full
                              | Raised _ => None
                              end) raws).
Proof.
  rewrite <- (gather_returns _ _ order). f_equal. apply map_ext. intros raw.
  simpl. unfold MercapiClient_enrich_item. by destruct (full_item api raw).
Qed.

Lemma recommend_mercapi sched (api : @Mercapi Exn) self reqs uq results :
  client self = MercapiClient api -> reqs <> [] ->
  Forall2 (fun r res => search (client self) r (max_shallow self) = Returned res)
          reqs results ->
  recommend lower sched self reqs uq
  = (search_calls self reqs
       ++ map EnrichCall (survivors lower self (current_tokens lower reqs uq) (pool results)),
     Returned
       (final_rank lower self (current_tokens lower reqs uq)
          (omap (enriched_product api)
                (survivors lower self (current_tokens lower reqs uq) (pool results))))).
Proof.
  intros Hc Hne HF. unfold recommend.
  destruct reqs as [|r0 reqs]; [done|].
  rewrite (gather_searches sched self _ _ HF).
  fold (current_tokens lower (r0 :: reqs) uq).
  rewrite shallow_stage_survivors.
  rewrite to_enrich_survivors.
  - rewrite Hc, gather_enrich, merge_stage_survivors. done.
  - rewrite pool_flat. apply pooled_nodup.
  - apply survivors_pooled.
Qed.

Lemma NoDup_map_inj {A B} (f : A -> B) (l : list A) x y :
  NoDup (map f l) -> x ∈ l -> y ∈ l -> f x = f y -> x = y.
Proof.
  induction l as [|z l IH]; simpl; [by intros _ ?%elem_of_nil|].
  intros [Hz Hnd]%NoDup_cons [->|Hx]%elem_of_cons [->|Hy]%elem_of_cons Hf.
  - done.
  - exfalso. apply Hz. rewrite Hf. by apply (list_elem_of_fmap_2 f).
  - exfalso. apply Hz. rewrite <- Hf. by apply (list_elem_of_fmap_2 f).
  - by apply IH.
Qed.

Lemma merge_full_id detail sh : id (shallow (_merge_full detail sh)) = id sh.
Proof.
  unfold _merge_full. simpl.
  by destruct (full_created detail), (item_condition detail), (seller detail).
Qed.

Lemma slice_to_all {A} n (l : list A) :
  Z.of_nat (length l) <= n -> slice_to n l = l.
Proof.
  intros Hn. unfold slice_to. destruct (Z.ltb_spec n 0); [lia|].
  apply firstn_all2. lia.
Qed.

Lemma enriched_product_Some (api : @Mercapi Exn) raw p :
  enriched_product api raw = Some p ->
  exists detail, full_item api raw = Returned (Some detail)
                 /\ p = _merge_full detail (_parse_shallow raw).
Proof.
  unfold enriched_product.
  destruct (full_item api raw) as [[detail|]|e]; [|done..].
  intros [= <-]. eauto.
Qed.

(** Claim C2.  With the mercapi adapter as client and every search
    returned, [recommend] does not raise even when detail fetches do: the
    final ranking is computed over the survivors whose fetch returned,
    each ranked item is the merge of such a survivor, no ranked item has
    the identifier of a survivor whose fetch raised or returned nothing,
    and when the return cap allows the ranking is a permutation of the
    merged survivors. *)
Theorem enrichment_failure_isolated sched (api : @Mercapi Exn) self reqs uq
    results :
  client self = MercapiClient api -> reqs <> [] ->
  Forall2 (fun r res => search (client self) r (max_shallow self) = Returned res)
          reqs results ->
  let tokens := current_tokens lower reqs uq in
  let surv := survivors lower self tokens (pool results) in
  let enriched := omap (enriched_product api) surv in
  shallow_stage lower self tokens (pool results) = map _parse_shallow surv
  /\ exists ranking,
      (recommend lower sched self reqs uq).2 = Returned ranking
      /\ ranking = final_rank lower self tokens enriched
      /\ (forall p, p ∈ ranking ->
            exists raw detail,
              raw ∈ surv /\ full_item api raw = Returned (Some detail)
              /\ p = _merge_full detail (_parse_shallow raw))
      /\ (forall raw p,
            raw ∈ surv ->
            full_item api raw = Returned None
            \/ (exists e, full_item api raw = Raised e) ->
            p ∈ ranking ->
            id (shallow p) <> id_ raw)
      /\ (Z.of_nat (length enriched) <= max_return self -> ranking ≡ₚ enriched).
Proof.
  intros Hc Hne HF tokens surv enriched.
  split; [apply shallow_stage_survivors|].
  exists (final_rank lower self tokens enriched).
  assert (Hfrom : forall p, p ∈ final_rank lower self tokens enriched ->
            exists raw detail,
              raw ∈ surv /\ full_item api raw = Returned (Some detail)
              /\ p = _merge_full detail (_parse_shallow raw)).
  { intros p Hp. unfold final_rank in Hp. apply slice_to_elem in Hp.
    rewrite sorted_desc_perm in Hp.
    apply list_elem_of_omap in Hp as (raw & Hraw & Hp).
    apply enriched_product_Some in Hp as (detail & Hd & ->). eauto. }
  split; [by rewrite (recommend_mercapi sched api self reqs uq results)|].
  split; [done|]. split; [done|]. split.
  - intros raw p Hraw He Hp Hid.
    destruct (Hfrom p Hp) as (raw' & detail & Hraw' & Hd & ->).
    rewrite merge_full_id in Hid. change (id (_parse_shallow raw')) with (id_ raw') in Hid.
    assert (raw' = raw) as ->; [|destruct He as [He|[e He]]; congruence].
    apply (NoDup_map_inj id_ (pool results)); [|by eapply survivors_pooled..|done].
    rewrite pool_flat. apply pooled_nodup.
  - intros Hlen. unfold final_rank. rewrite slice_to_all.
    + apply sorted_desc_perm.
    + by rewrite sorted_desc_perm.
Qed.

(** *** The call log and the errors of [recommend] *)

Lemma recommend_log sched self reqs uq :
  exists raws,
    (recommend lower sched self reqs uq).1
    = search_calls self reqs ++ map EnrichCall raws.
Proof.
  unfold recommend. destruct reqs as [|r0 reqs]; [by exists []|].
  destruct (gather (search_order sched) _).
  - destruct (gather (enrich_order sched) _); simpl; eauto.
  - exists []. simpl. by rewrite app_nil_r.
Qed.

Lemma recommend_raised_inv sched self reqs uq e :
  (recommend lower sched self reqs uq).2 = Raised e ->
  (exists r, r ∈ reqs /\ search (client self) r (max_shallow self) = Raised e)
  \/ (exists raw, enrich_item (client self) raw = Raised e).
Proof.
  unfold recommend. destruct reqs as [|r0 reqs]; [done|].
  destruct (gather (search_order sched) _) as [results|e1] eqn:Hs.
  - destruct (gather (enrich_order sched) _) as [en|e2] eqn:He; [done|].
    simpl. intros [= ->]. right.
    apply gather_raised_inv in He as [j Hj].
    apply lookup_map_Some in Hj as (raw & _ & Hraw). eauto.
  - simpl. intros [= ->]. left.
    apply gather_raised_inv in Hs as [j Hj].
    apply lookup_map_Some in Hj as (r & Hr & Her).
    exists r. split; [by eapply list_elem_of_lookup_2|done].
Qed.

Lemma gather_nil {A} order : gather (E:=Exn) (A:=A) order [] = Returned [].
Proof. unfold gather. by rewrite first_raised_all_returned. Qed.

Lemma rating_filter_drops self raw :
  (0 < min_seller_rating self)%Q ->
  _should_include self (_parse_shallow raw) = false.
Proof.
  intros Hmin. apply not_true_is_false. intros (_ & _ & _ & Hr)%should_include_spec.
  exact (Qlt_not_le _ _ Hmin Hr).
Qed.

Lemma shallow_stage_rating_floor self tokens raw_items :
  (0 < min_seller_rating self)%Q ->
  shallow_stage lower self tokens raw_items = [].
Proof.
  intros Hmin. unfold shallow_stage.
  assert (Hnil : List.filter (_should_include self) (map _parse_shallow raw_items) = []).
  { induction raw_items as [|raw l IH]; [done|]. simpl.
    by rewrite rating_filter_drops. }
  rewrite Hnil. apply slice_to_nil.
Qed.

(** Claim C10.  The shallow parse leaves the seller rating absent, so the
    rating term of every shallow score is 0 and the rating filter compares
    0 with the configured minimum; when the minimum is strictly positive
    every item is dropped, no enrichment is started and [recommend] returns
    the empty list whenever it returns. *)
Theorem shallow_rating_always_absent sched self reqs uq :
  (forall raw, seller_rating (_parse_shallow raw) = None)
  /\ (forall raw tokens,
        (rating_or_zero (_parse_shallow raw) * (12 # 10) == 0)%Q
        /\ (_shallow_score lower self tokens (_parse_shallow raw) ==
            _relevance_score lower tokens (_parse_shallow raw) * 4
            + _price_score self (_parse_shallow raw) * (13 # 10))%Q)
  /\ (forall raw, _should_include self (_parse_shallow raw) = true ->
                  (min_seller_rating self <= 0)%Q)
  /\ ((0 < min_seller_rating self)%Q ->
      (forall tokens raw_items, shallow_stage lower self tokens raw_items = [])
      /\ (forall ranking,
            (recommend lower sched self reqs uq).2 = Returned ranking ->
            ranking = [])
      /\ (forall results,
            Forall2 (fun r res =>
                       search (client self) r (max_shallow self) = Returned res)
                    reqs results ->
            (recommend lower sched self reqs uq).2 = Returned [])
      /\ (forall raw, EnrichCall raw ∉ (recommend lower sched self reqs uq).1)).
Proof.
  split; [done|]. split.
  { intros raw tokens. split; [reflexivity|].
    unfold _shallow_score.
    change (rating_or_zero (_parse_shallow raw)) with 0%Q. ring. }
  split.
  { intros raw (_ & _ & _ & Hr)%should_include_spec. exact Hr. }
  intros Hmin.
  assert (Hrec : recommend lower sched self reqs uq = ([], Returned [])
                 \/ (exists e, recommend lower sched self reqs uq
                               = (search_calls self reqs, Raised e))
                 \/ recommend lower sched self reqs uq
                    = (search_calls self reqs, Returned [])).
  { unfold recommend. destruct reqs as [|r0 reqs]; [by left|]. right.
    destruct (gather (search_order sched) _) as [results|e]; [|by eauto].
    right. rewrite shallow_stage_rating_floor by done. simpl.
    rewrite gather_nil. unfold final_rank, merge_stage. simpl.
    by rewrite slice_to_nil, app_nil_r. }
  split; [intros; by apply shallow_stage_rating_floor|]. split; [|split].
  - intros ranking. destruct Hrec as [->|[[e ->]| ->]]; simpl; congruence.
  - intros results HF. unfold recommend.
    destruct reqs as [|r0 reqs]; [done|].
    rewrite (gather_searches sched self _ _ HF).
    rewrite shallow_stage_rating_floor by done. simpl.
    rewrite gather_nil. unfold final_rank, merge_stage. simpl.
    by rewrite slice_to_nil.
  - intros raw Hin.
    assert (Hs : EnrichCall raw ∈ search_calls self reqs -> False).
    { intros (r & Hr & _)%list_elem_of_fmap. done. }
    destruct Hrec as [Hr|[[e Hr]|Hr]]; rewrite Hr in Hin; simpl in Hin; [|done..].
    by apply elem_of_nil in Hin.
Qed.

End Recommend.

Lemma recommend_fail_fast_witness :
  exists e' r',
    (recommend ascii_lower demo_sched demo_service
       [request "ps5"; request "offline"; request "ps5"] (lit "ps5")).2
    = Raised e'
    /\ r' ∈ [request "ps5"; request "offline"; request "ps5"]
    /\ search (client demo_service) r' (max_shallow demo_service) = Raised e'
    /\ (recommend ascii_lower demo_sched demo_service
          [request "ps5"; request "offline"; request "ps5"] (lit "ps5")).1
       = search_calls demo_service
           [request "ps5"; request "offline"; request "ps5"]
    /\ ((forall r'' e'',
           r'' ∈ [request "ps5"; request "offline"; request "ps5"] ->
           search (client demo_service) r'' (max_shallow demo_service)
           = Raised e'' ->
           r'' = request "offline") ->
        e' = "backend down"%string).
Proof.
  apply (recommend_fail_fast ascii_lower demo_sched demo_service
           [request "ps5"; request "offline"; request "ps5"] (lit "ps5")
           (request "offline") "backend down"%string).
  - apply list_elem_of_further, list_elem_of_here.
  - reflexivity.
Defined.

(** Five survivors, two failed detail fetches: three items are ranked. *)
Lemma enrichment_failure_isolated_witness :
  length (survivors ascii_lower demo_service
            (current_tokens ascii_lower [request "ps5"] (lit "ps5"))
            (pool [five_items])) = 5%nat
  /\ exists ranking,
       (recommend ascii_lower demo_sched demo_service [request "ps5"]
          (lit "ps5")).2 = Returned ranking
       /\ map (fun p => id (shallow p)) ranking
          = [Some (lit "m1"); Some (lit "m3"); Some (lit "m5")].
Proof.
  split; [reflexivity|].
  destruct (enrichment_failure_isolated ascii_lower demo_sched demo_api
              demo_service [request "ps5"] (lit "ps5") [five_items])
    as (_ & ranking & Hr & Heq & _).
  - reflexivity.
  - discriminate.
  - repeat constructor.
  - exists ranking. split; [exact Hr|]. rewrite Heq. reflexivity.
Defined.

Lemma shallow_rating_always_absent_witness :
  (recommend ascii_lower demo_sched picky_service [request "ps5"]
     (lit "ps5")).2 = Returned [].
Proof.
  refine (proj1 (proj2 (proj2 (proj2 (proj2 (proj2
            (shallow_rating_always_absent ascii_lower demo_sched
               picky_service [request "ps5"] (lit "ps5")))) _)))
            [five_items] _).
  - reflexivity.
  - repeat constructor.
Defined.

(** ** Candidate validation *)

Lemma lstrip_blank kw : blank kw -> lstrip kw = [].
Proof. induction 1 as [|c kw Hc _ IH]; [done|]. simpl. by rewrite Hc. Qed.

Lemma strip_blank kw : blank kw -> strip kw = [].
Proof. intros H. unfold strip. by rewrite (lstrip_blank kw H). Qed.

Lemma build_request_Some cand req :
  build_request cand = Some req ->
  exists kw, keywords cand = JString kw /\ ~ blank kw
             /\ query_text req = strip kw /\ query_text req <> [].
Proof.
  unfold build_request. destruct (keywords cand) as [|kw|]; try done.
  destruct (strip kw) as [|c q] eqn:Hs; [done|]. intros [= <-].
  exists kw. simpl. repeat split; try done.
  intros Hb. by rewrite (strip_blank kw Hb) in Hs.
Qed.

Section Agent.
Variable lower : list N -> list N.
Context {Exn : Type}.

(** Claim C8.  A candidate whose keywords are empty or whitespace-only
    yields no search request: every search started comes from a candidate
    with non-blank keywords, and when the searches of those candidates and
    the enrichments return, the call returns a ranking without error. *)
Theorem blank_candidate_skipped sched (mercari_client : @Client Exn) payload
    uq :
  (forall cand kw,
     keywords cand = JString kw -> blank kw -> build_request cand = None)
  /\ (forall req limit,
        SearchCall req limit
          ∈ (get_recommendations lower sched mercari_client payload uq).1 ->
        exists cand kw,
          cand ∈ payload /\ build_request cand = Some req
          /\ keywords cand = JString kw /\ ~ blank kw
          /\ query_text req = strip kw /\ query_text req <> [])
  /\ ((forall req, req ∈ omap build_request payload ->
         exists res, search mercari_client req MAX_SHALLOW = Returned res) ->
      (forall raw, exists full, enrich_item mercari_client raw = Returned full) ->
      exists ranking,
        (get_recommendations lower sched mercari_client payload uq).2
        = Returned ranking).
Proof.
  split; [|split].
  - intros cand kw Hk Hb. unfold build_request. by rewrite Hk, (strip_blank kw Hb).
  - intros req limit Hin.
    assert (Hreq : req ∈ omap build_request payload).
    { unfold get_recommendations in Hin.
      destruct payload as [|c0 payload']; [by apply elem_of_nil in Hin|].
      destruct (omap build_request (c0 :: payload')) as [|r0 reqs];
        [by apply elem_of_nil in Hin|].
      destruct (recommend_log lower sched
                  (new_service mercari_client (global_max_price (c0 :: payload')))
                  (r0 :: reqs) uq) as [raws Hlog].
      rewrite Hlog in Hin. apply elem_of_app in Hin as [Hin|Hin].
      - apply list_elem_of_fmap in Hin as (r & [= -> _] & Hr). done.
      - by apply list_elem_of_fmap in Hin as (r & ? & _). }
    apply list_elem_of_omap in Hreq as (cand & Hc & Hb).
    destruct (build_request_Some _ _ Hb) as (kw & ? & ? & ? & ?).
    exists cand, kw. done.
  - intros Hs He. unfold get_recommendations.
    destruct payload as [|c0 payload']; [by eauto|].
    destruct (omap build_request (c0 :: payload')) as [|r0 reqs] eqn:Hreqs;
      [by eauto|].
    destruct (recommend lower sched _ (r0 :: reqs) uq).2 as [ranking|e] eqn:Hout;
      [by eauto|].
    exfalso. apply recommend_raised_inv in Hout as [(r & Hr & Hraise)|(raw & Hraise)].
    + destruct (Hs r Hr) as [res Hres]. simpl in Hraise. congruence.
    + destruct (He raw) as [full Hfull]. simpl in Hraise. congruence.
Qed.

End Agent.

Lemma blank_candidate_skipped_witness :
  build_request (candidate "   ") = None
  /\ List.filter (fun c => match c with SearchCall _ _ => true | _ => false end)
       (get_recommendations ascii_lower demo_sched (MercapiClient demo_api)
          [candidate "   "; candidate " ps5 "] (lit "ps5")).1
     = [SearchCall (request "ps5") MAX_SHALLOW].
Proof.
  split; [|reflexivity].
  apply (proj1 (blank_candidate_skipped ascii_lower demo_sched
                  (MercapiClient demo_api)
                  [candidate "   "; candidate " ps5 "] (lit "ps5"))
           (candidate "   ") (lit "   ")).
  - reflexivity.
  - repeat constructor.
Defined.

(** * Further properties *)

(** ** Score ranges *)

Lemma py_max_lower a b : (a <= py_max a b)%Q.
Proof.
  unfold py_max. destruct (Qlt_bool a b) eqn:E.
  - apply Qlt_bool_true in E. by apply Qlt_le_weak.
  - apply Qle_refl.
Qed.

Lemma py_max_upper a b c : (a <= c)%Q -> (b <= c)%Q -> (py_max a b <= c)%Q.
Proof. unfold py_max. by destruct (Qlt_bool a b). Qed.

Section Scores.
Variable lower : list N -> list N.
Context {Exn : Type}.
Implicit Types (self : @RecommendationService Exn).

Lemma relevance_in_unit_interval tokens p :
  (0 <= _relevance_score lower tokens p <= 1)%Q.
Proof.
  unfold _relevance_score. destruct tokens as [|t ts]; [done|].
  set (toks := t :: ts).
  set (hits := length (List.filter _ toks)).
  assert (Hh : (hits <= length toks)%nat) by apply filter_length_le.
  assert (Hn : (1 <= length toks)%nat) by (simpl; lia).
  rewrite Z.max_l by lia.
  assert (Hpos : (0 < inject_Z (Z.of_nat (length toks)))%Q).
  { change 0%Q with (inject_Z 0). rewrite <- Zlt_Qlt. lia. }
  split.
  - apply Qle_shift_div_l; [done|]. rewrite Qmult_0_l.
    change 0%Q with (inject_Z 0). rewrite <- Zle_Qle. lia.
  - apply Qle_shift_div_r; [done|]. rewrite Qmult_1_l.
    rewrite <- Zle_Qle. lia.
Qed.

Lemma price_in_unit_interval self p :
  (0 <= _price_score self p <= 1)%Q.
Proof.
  unfold _price_score. destruct (negb _); [done|].
  set (target := py_max 1 _).
  assert (Ht : (1 <= target)%Q) by apply py_max_lower.
  assert (Hpos : (0 < target)%Q) by (eapply Qlt_le_trans; [|exact Ht]; done).
  split; [apply py_max_lower|].
  apply py_max_upper; [done|].
  set (d := Qabs _).
  assert (Hd : (0 <= d / target)%Q).
  { apply Qle_shift_div_l; [done|]. rewrite Qmult_0_l. apply Qabs_nonneg. }
  rewrite <- (Qplus_0_r 1) at 2. unfold Qminus.
  apply Qplus_le_r. apply (Qopp_le_compat 0). exact Hd.
Qed.

(** X1.  The relevance score is a fraction between 0 and 1, and it is 0
    when there are no query tokens. *)
Theorem relevance_score_bounds tokens p :
  (0 <= _relevance_score lower tokens p <= 1)%Q
  /\ _relevance_score lower [] p = 0%Q.
Proof. split; [apply relevance_in_unit_interval|done]. Qed.

(** X2.  The price score lies between 0 and 1 for every price and every
    configured maximum. *)
Theorem price_score_bounds self p :
  (0 <= _price_score self p <= 1)%Q.
Proof. apply price_in_unit_interval. Qed.

(** X3.  An item parsed from a search result has no rating yet, so its
    shallow score lies between 0 and 5.3. *)
Theorem shallow_score_bounds self tokens raw :
  (0 <= _shallow_score lower self tokens (_parse_shallow raw) <= 53 # 10)%Q.
Proof.
  unfold _shallow_score.
  change (rating_or_zero (_parse_shallow raw)) with 0%Q.
  destruct (relevance_in_unit_interval tokens (_parse_shallow raw)) as [Hr0 Hr1].
  destruct (price_in_unit_interval self (_parse_shallow raw)) as [Hp0 Hp1].
  set (r := _relevance_score lower tokens (_parse_shallow raw)) in *.
  set (p := _price_score self (_parse_shallow raw)) in *.
  assert (H4 : (0 <= r * 4 <= 4)%Q).
  { split.
    - apply Qmult_le_0_compat; [done|discriminate].
    - rewrite <- (Qmult_1_l 4) at 2. apply Qmult_le_compat_r; [done|discriminate]. }
  assert (H13 : (0 <= p * (13 # 10) <= 13 # 10)%Q).
  { split.
    - apply Qmult_le_0_compat; [done|discriminate].
    - rewrite <- (Qmult_1_l (13 # 10)) at 2.
      apply Qmult_le_compat_r; [done|discriminate]. }
  assert (Hz : (0 * (12 # 10) == 0)%Q) by reflexivity.
  rewrite Hz, Qplus_0_r. split.
  - rewrite <- (Qplus_0_r 0). apply Qplus_le_compat; tauto.
  - apply Qle_trans with (4 + (13 # 10))%Q;
      [apply Qplus_le_compat; tauto | discriminate].
Qed.

End Scores.

(** ** Stable sorting *)

Section Stability.
Context {A : Type} (key : A -> Q).



End Stability.


Section Gather2.
Context {E A : Type}.

Lemma first_raised_seq_none (outs : list (Outcome E A)) :
  first_raised outs (seq 0 (length outs)) = None ->
  Forall (fun o => exists a, o = Returned a) outs.
Proof.
  intros Hn. apply Forall_forall. intros o Ho.
  apply list_elem_of_lookup in Ho as [i Hi].
  destruct o as [a|e]; [by eauto|]. exfalso.
  apply (first_raised_none outs _ i Hn) with e; [|done].
  apply elem_of_seq. apply lookup_lt_Some in Hi. lia.
Qed.

Lemma gather_returned_inv order (outs : list (Outcome E A)) l :
  gather order outs = Returned l -> outs = map Returned l.
Proof.
  unfold gather. destruct (first_raised _ _) eqn:Hf; [done|].
  intros [= <-]. apply first_raised_app_none, first_raised_seq_none in Hf.
  induction Hf as [|o outs [a ->] _ IH]; [done|]. simpl. by f_equal.
Qed.

End Gather2.

Lemma NoDup_map_sublist {A B} (f : A -> B) (l1 l2 : list A) :
  l1 `sublist_of` l2 -> NoDup (map f l2) -> NoDup (map f l1).
Proof.
  intros Hs Hnd. apply (sublist_NoDup _ _ Hnd). by apply (fmap_sublist f).
Qed.

Section Invariants.
Variable lower : list N -> list N.
Context {Exn : Type}.
Implicit Types (self : @RecommendationService Exn) (reqs : list SearchRequest).

Lemma map_search_returned self reqs results :
  map (fun req => search (client self) req (max_shallow self)) reqs
  = map Returned results ->
  Forall2 (fun r res => search (client self) r (max_shallow self) = Returned res)
          reqs results.
Proof.
  revert results. induction reqs as [|r reqs IH]; intros [|res results];
    simpl; try done; try (by constructor).
  intros [= Hr Hrest]. constructor; [done|]. by apply IH.
Qed.

(** What [recommend] has done when it returns. *)
Lemma recommend_returned_inv sched self reqs uq ranking :
  (recommend lower sched self reqs uq).2 = Returned ranking ->
  (reqs = [] /\ ranking = [])
  \/ exists results enriched_raw,
       Forall2 (fun r res =>
                  search (client self) r (max_shallow self) = Returned res)
               reqs results
       /\ map (enrich_item (client self))
              (survivors lower self (current_tokens lower reqs uq) (pool results))
          = map Returned enriched_raw
       /\ ranking
          = final_rank lower self (current_tokens lower reqs uq)
              (merge_stage enriched_raw
                 (map _parse_shallow
                    (survivors lower self (current_tokens lower reqs uq)
                               (pool results)))).
Proof.
  unfold recommend. destruct reqs as [|r0 reqs]; [intros [= <-]; by left|].
  destruct (gather (search_order sched) _) as [results|e] eqn:Hs; [|done].
  fold (current_tokens lower (r0 :: reqs) uq).
  rewrite shallow_stage_survivors.
  rewrite to_enrich_survivors;
    [|rewrite pool_flat; apply pooled_nodup|apply survivors_pooled].
  destruct (gather (enrich_order sched) _) as [enriched_raw|e] eqn:He; [|done].
  simpl. intros [= <-]. right. exists results, enriched_raw.
  apply gather_returned_inv in Hs, He.
  split; [by apply map_search_returned|]. done.
Qed.

Lemma merge_stage_elem enriched_raw candidates p :
  p ∈ merge_stage enriched_raw candidates ->
  exists detail sh, sh ∈ candidates /\ p = _merge_full detail sh.
Proof.
  unfold merge_stage. intros (rs & Hrs & Hp)%list_elem_of_omap.
  destruct rs as [[detail|] sh]; simpl in Hp; [|done].
  injection Hp as <-. exists detail, sh. split; [|done].
  apply list_elem_of_In in Hrs. apply in_combine_r in Hrs.
  by apply list_elem_of_In.
Qed.

Lemma merge_stage_ids enriched_raw candidates :
  map (fun p => id (shallow p)) (merge_stage enriched_raw candidates)
  `sublist_of` map id candidates.
Proof.
  unfold merge_stage. revert candidates.
  induction enriched_raw as [|r rs IH]; intros [|c cs]; cbn -[_merge_full];
    try apply sublist_nil_l.
  destruct r as [detail|]; cbn -[_merge_full].
  - rewrite merge_full_id. apply sublist_skip, IH.
  - apply sublist_cons, IH.
Qed.

Lemma survivors_nodup self tokens results :
  NoDup (map id_ (survivors lower self tokens (pool results))).
Proof.
  unfold survivors.
  destruct (slice_to_take (max_candidates self)
              (sorted_desc
                 (fun raw => _shallow_score lower self tokens (_parse_shallow raw))
                 (List.filter
                    (fun raw => _should_include self (_parse_shallow raw))
                    (pool results)))) as [k ->].
  apply (NoDup_map_sublist id_ _ _ (sublist_take _ _)).
  rewrite sorted_desc_perm.
  apply (NoDup_map_sublist id_ _ (pool results)).
  - clear. induction (pool results) as [|x l IH]; simpl; [done|].
    destruct (_should_include _ _); [by apply sublist_skip|by apply sublist_cons].
  - rewrite pool_flat. apply pooled_nodup.
Qed.

Lemma survivors_kept self tokens raw_items raw :
  raw ∈ survivors lower self tokens raw_items ->
  _should_include self (_parse_shallow raw) = true.
Proof.
  unfold survivors. intros H%slice_to_elem. rewrite sorted_desc_perm in H.
  by apply list_elem_of_In, filter_In in H as [_ H].
Qed.

Lemma pool_elem results raw :
  raw ∈ pool results ->
  truthy_str (id_ raw) = true /\ exists res, res ∈ results /\ raw ∈ res.
Proof.
  rewrite pool_flat. intros [Ht Hf%first_seen_elem]%pooled_first_seen.
  split; [done|]. apply list_elem_of_In, in_concat in Hf as (res & ? & ?).
  exists res. by rewrite !list_elem_of_In.
Qed.

End Invariants.

(** ** What the pipeline returns and what it calls *)

Lemma StronglySorted_take {A} (R : A -> A -> Prop) (l : list A) k :
  StronglySorted R l -> StronglySorted R (take k l).
Proof.
  intros Hs. revert k. induction Hs as [|x l Hs IH Hall]; intros [|k]; simpl;
    try constructor.
  - apply IH.
  - apply Forall_take, Hall.
Qed.

Lemma slice_to_length {A} n (l : list A) :
  0 <= n -> Z.of_nat (length (slice_to n l)) <= n.
Proof.
  intros Hn. unfold slice_to. destruct (Z.ltb_spec n 0); [lia|].
  rewrite length_take. lia.
Qed.

Lemma slice_to_sublist {A} n (l : list A) : slice_to n l `sublist_of` l.
Proof. destruct (slice_to_take n l) as [k ->]. apply sublist_take. Qed.

Section PipelineFacts.
Variable lower : list N -> list N.
Context {Exn : Type}.
Implicit Types (self : @RecommendationService Exn) (reqs : list SearchRequest).

(** X5.  The final ranking is in descending order of deep score, holds
    only enriched items, and is no longer than the return cap (when the
    cap is not negative) nor than the list of enriched items. *)
Theorem ranking_sorted_and_capped self tokens enriched :
  StronglySorted (desc (_deep_score lower self tokens))
                 (final_rank lower self tokens enriched)
  /\ (0 <= max_return self ->
      Z.of_nat (length (final_rank lower self tokens enriched))
      <= Z.min (max_return self) (Z.of_nat (length enriched)))
  /\ (forall p, p ∈ final_rank lower self tokens enriched -> p ∈ enriched).
Proof.
  unfold final_rank. split; [|split].
  - destruct (slice_to_take (max_return self)
                (sorted_desc (_deep_score lower self tokens) enriched)) as [k ->].
    apply StronglySorted_take, sorted_desc_sorted.
  - intros Hn. apply Z.min_glb; [by apply slice_to_length|].
    apply inj_le. rewrite <- (Permutation_length (sorted_desc_perm
                       (_deep_score lower self tokens) enriched)).
    apply sublist_length, slice_to_sublist.
  - intros p Hp%slice_to_elem. by rewrite sorted_desc_perm in Hp.
Qed.


Lemma Forall2_elem_r {A B} (R : A -> B -> Prop) l k y :
  Forall2 R l k -> y ∈ k -> exists x, x ∈ l /\ R x y.
Proof.
  induction 1 as [|x y' l k Hxy _ IH]; [by intros ?%elem_of_nil|].
  intros [->|Hy]%elem_of_cons.
  - exists x. split; [apply list_elem_of_here|done].
  - destruct (IH Hy) as (x' & ? & ?). exists x'.
    split; [by apply list_elem_of_further|done].
Qed.

Lemma merge_full_fields detail sh :
  id (shallow (_merge_full detail sh)) = id sh
  /\ name (shallow (_merge_full detail sh)) = name sh
  /\ price_jpy (shallow (_merge_full detail sh)) = price_jpy sh
  /\ item_type (shallow (_merge_full detail sh)) = item_type sh
  /\ url (shallow (_merge_full detail sh)) = url sh.
Proof.
  unfold _merge_full. simpl.
  by destruct (full_created detail), (item_condition detail), (seller detail).
Qed.

Lemma ranking_items sched self reqs uq ranking :
  (recommend lower sched self reqs uq).2 = Returned ranking ->
  NoDup (map (fun p => id (shallow p)) ranking)
  /\ forall p, p ∈ ranking ->
       exists r res raw,
         r ∈ reqs
         /\ search (client self) r (max_shallow self) = Returned res
         /\ raw ∈ res
         /\ truthy_str (id_ raw) = true
         /\ _should_include self (_parse_shallow raw) = true
         /\ id (shallow p) = id_ raw
         /\ name (shallow p) = raw_name raw
         /\ price_jpy (shallow p) = price raw
         /\ item_type (shallow p) = raw_item_type raw
         /\ url (shallow p) = None.
Proof.
  intros [[-> ->]|(results & enriched_raw & HF & _ & ->)]%recommend_returned_inv.
  { split; [constructor|]. by intros p ?%elem_of_nil. }
  set (tokens := current_tokens lower reqs uq).
  set (surv := survivors lower self tokens (pool results)).
  split.
  - unfold final_rank.
    apply (NoDup_map_sublist _ _ _ (slice_to_sublist _ _)).
    rewrite sorted_desc_perm.
    eapply sublist_NoDup; [|apply merge_stage_ids].
    rewrite map_map. apply survivors_nodup.
  - intros p Hp.
    unfold final_rank in Hp. apply slice_to_elem in Hp.
    rewrite sorted_desc_perm in Hp.
    apply merge_stage_elem in Hp as (detail & sh & Hsh & ->).
    apply list_elem_of_fmap in Hsh as (raw & -> & Hraw).
    pose proof (survivors_kept lower self tokens _ raw Hraw) as Hkeep.
    apply survivors_pooled, pool_elem in Hraw as (Ht & res & Hres & Hin).
    destruct (Forall2_elem_r _ _ _ _ HF Hres) as (r & Hr & Hsearch).
    exists r, res, raw.
    destruct (merge_full_fields detail (_parse_shallow raw))
      as (-> & -> & -> & -> & ->).
    by repeat split.
Qed.

(** X6.  Whatever the client does, a ranking that [recommend] returns
    lists no identifier twice, and each of its items keeps the identifier,
    name, price and tag of a raw item that a search returned and that
    passed the hard filters; its URL is still unset. *)
Theorem ranking_provenance sched self reqs uq ranking :
  (recommend lower sched self reqs uq).2 = Returned ranking ->
  NoDup (map (fun p => id (shallow p)) ranking)
  /\ forall p, p ∈ ranking ->
       exists r res raw,
         r ∈ reqs
         /\ search (client self) r (max_shallow self) = Returned res
         /\ raw ∈ res
         /\ truthy_str (id_ raw) = true
         /\ _should_include self (_parse_shallow raw) = true
         /\ id (shallow p) = id_ raw
         /\ name (shallow p) = raw_name raw
         /\ price_jpy (shallow p) = price raw
         /\ item_type (shallow p) = raw_item_type raw
         /\ url (shallow p) = None.
Proof. apply ranking_items. Qed.

(** X7.  [recommend] starts exactly one search per request, in request
    order and with the per-request cap, and then at most [max_candidates]
    enrichments (when that cap is not negative), each for a different
    identifier and only for items that passed the hard filters. *)
Theorem recommend_call_budget sched self reqs uq :
  exists raws,
    (recommend lower sched self reqs uq).1
    = search_calls self reqs ++ map EnrichCall raws
    /\ NoDup (map id_ raws)
    /\ (0 <= max_candidates self ->
        Z.of_nat (length raws) <= max_candidates self)
    /\ (forall raw, raw ∈ raws ->
          truthy_str (id_ raw) = true
          /\ _should_include self (_parse_shallow raw) = true).
Proof.
  unfold recommend. destruct reqs as [|r0 reqs].
  { exists []. split; [done|]. split; [constructor|].
    split; [simpl; lia|]. by intros raw ?%elem_of_nil. }
  destruct (gather (search_order sched) _) as [results|e] eqn:Hs.
  - fold (current_tokens lower (r0 :: reqs) uq).
    rewrite shallow_stage_survivors.
    rewrite to_enrich_survivors;
      [|rewrite pool_flat; apply pooled_nodup|apply survivors_pooled].
    exists (survivors lower self (current_tokens lower (r0 :: reqs) uq)
                      (pool results)).
    split; [by destruct (gather (enrich_order sched) _)|].
    split; [apply survivors_nodup|]. split.
    + intros Hn. unfold survivors. by apply slice_to_length.
    + intros raw Hraw. split; [|by eapply survivors_kept].
      by apply survivors_pooled, pool_elem in Hraw as [? _].
  - exists []. simpl. rewrite app_nil_r. split; [done|].
    split; [constructor|]. split; [lia|]. by intros raw ?%elem_of_nil.
Qed.

(** X8.  The pipeline itself does not isolate enrichment failures: with a
    client whose [enrich_item] raises for a survivor, [recommend] raises
    the error of a failing enrichment. *)
Theorem enrichment_error_propagates sched self reqs uq results raw e :
  reqs <> [] ->
  Forall2 (fun r res => search (client self) r (max_shallow self) = Returned res)
          reqs results ->
  raw ∈ survivors lower self (current_tokens lower reqs uq) (pool results) ->
  enrich_item (client self) raw = Raised e ->
  exists e' raw',
    (recommend lower sched self reqs uq).2 = Raised e'
    /\ raw' ∈ survivors lower self (current_tokens lower reqs uq) (pool results)
    /\ enrich_item (client self) raw' = Raised e'.
Proof.
  intros Hne HF Hraw He. unfold recommend.
  destruct reqs as [|r0 reqs]; [done|].
  rewrite (gather_searches sched self _ _ HF).
  fold (current_tokens lower (r0 :: reqs) uq).
  rewrite shallow_stage_survivors.
  rewrite to_enrich_survivors;
    [|rewrite pool_flat; apply pooled_nodup|apply survivors_pooled].
  apply list_elem_of_lookup in Hraw as [i Hi].
  pose proof (lookup_map (enrich_item (client self)) _ _ _ Hi) as Hout.
  rewrite He in Hout.
  destruct (gather_raises _ (enrich_order sched) _ _ Hout) as (e' & j & Hg & Hj).
  apply lookup_map_Some in Hj as (raw' & Hraw' & Her').
  rewrite Hg. simpl. exists e', raw'. split; [done|].
  split; [by eapply list_elem_of_lookup_2|done].
Qed.

End PipelineFacts.

(** ** The tokenizer *)

Lemma starts_with_spec t s :
  starts_with t s = true <-> exists post, s = t ++ post.
Proof.
  revert s. induction t as [|a t IH]; intros s; simpl.
  - split; [by eauto|done].
  - destruct s as [|b s].
    + split; [done|]. by intros [post ?].
    + rewrite andb_true_iff, IH, N.eqb_eq. split.
      * intros [-> [post ->]]. eauto.
      * intros [post [= -> ->]]. eauto.
Qed.

Lemma contains_spec s t :
  contains s t = true <-> exists pre post, s = pre ++ t ++ post.
Proof.
  induction s as [|b s IH]; simpl.
  - rewrite orb_false_r, starts_with_spec. split.
    + intros [post ->]. by exists [], post.
    + intros (pre & post & H). symmetry in H.
      apply app_eq_nil in H as [-> H]. apply app_eq_nil in H as [-> ->].
      by exists [].
  - rewrite orb_true_iff, starts_with_spec, IH. split.
    + intros [[post ->]|(pre & post & ->)]; [by exists [], post|].
      by exists (b :: pre), post.
    + intros ([|c pre] & post & H); simpl in H.
      * left. eauto.
      * injection H as -> ->. right. eauto.
Qed.

(** X9.  The tokens are pairwise different, each is a non-empty run of
    token characters that occurs in the lowered text, and a text without
    token characters has no tokens. *)
Theorem tokenize_tokens lower text :
  NoDup (tokenize lower text)
  /\ (forall t, t ∈ tokenize lower text ->
        t <> [] /\ Forall (fun c => token_char c = true) t
        /\ contains (lower text) t = true)
  /\ (Forall (fun c => token_char c = false) (lower text) ->
      tokenize lower text = []).
Proof.
  unfold tokenize.
  destruct (uniq_spec (findall [] (lower text))) as (Hnd & _ & Hel).
  split; [done|]. split.
  - intros t Ht%Hel.
    destruct (findall_tokens [] _ t (Forall_nil_2 _) Ht) as [[? ?] Hin].
    repeat split; try done. by apply contains_spec.
  - intros Hnone.
    assert (Hf : findall [] (lower text) = []).
    { clear Hnd Hel. induction Hnone as [|c s Hc _ IH]; [done|].
      simpl. rewrite Hc. simpl. exact IH. }
    by rewrite Hf.
Qed.

(** ** The adapter and the candidates *)

(** X10.  The adapter's search returns a prefix of what the library
    returned, of length min(limit, available) when the limit is not
    negative, and raises only what the library raised for the same price
    bounds. *)
Theorem mercapi_search_result {Exn} (api : @Mercapi Exn) request limit :
  (forall items,
     MercapiClient_search api request limit = Returned items ->
     exists q payer found_items,
       mercapi_search api q (min_price request) (max_price request) payer
       = Returned found_items
       /\ items `prefix_of` found_items
       /\ (0 <= limit ->
           Z.of_nat (length items) = Z.min limit (Z.of_nat (length found_items))))
  /\ (forall e,
        MercapiClient_search api request limit = Raised e ->
        exists q payer,
          mercapi_search api q (min_price request) (max_price request) payer
          = Raised e).
Proof.
  unfold MercapiClient_search.
  set (q := match location request with Some (c :: loc) => _ | _ => _ end).
  set (payer := if decide _ then _ else _).
  destruct (mercapi_search api q _ _ payer) as [found_items|e] eqn:Hs.
  - split; [|done]. intros items [= <-]. exists q, payer, found_items.
    split; [done|]. split.
    + destruct (slice_to_take limit found_items) as [k ->]. apply prefix_take.
    + intros Hl. unfold slice_to. destruct (Z.ltb_spec limit 0); [lia|].
      rewrite length_take. lia.
  - split; [done|]. intros e' [= <-]. by exists q, payer.
Qed.

Lemma foldl_min_spec v vs :
  foldl Z.min v vs ∈ v :: vs /\ forall w, w ∈ v :: vs -> foldl Z.min v vs <= w.
Proof.
  revert v. induction vs as [|u vs IH]; intros v; simpl.
  - split; [apply list_elem_of_here|].
    intros w ->%list_elem_of_singleton. lia.
  - destruct (IH (Z.min v u)) as [Hin Hle]. split.
    + apply elem_of_cons in Hin as [Heq|Hin].
      * rewrite Heq. destruct (Z.min_spec v u) as [[_ ->]|[_ ->]].
        -- apply list_elem_of_here.
        -- apply list_elem_of_further, list_elem_of_here.
      * by do 2 apply list_elem_of_further.
    + intros w Hw.
      pose proof (Hle (Z.min v u) (list_elem_of_here _ _)) as Hm.
      apply elem_of_cons in Hw as [->|Hw]; [lia|].
      apply elem_of_cons in Hw as [->|Hw]; [lia|].
      apply Hle. by apply list_elem_of_further.
Qed.

(** X11.  The global max price is the smallest max price among all the
    candidates of the payload, and is unset exactly when no candidate has
    one. *)
Theorem global_max_price_is_minimum (payload : list Candidate) :
  match global_max_price payload with
  | None => forall cand, cand ∈ payload -> cand_max_price_jpy cand = None
  | Some m =>
      (exists cand, cand ∈ payload /\ cand_max_price_jpy cand = Some m)
      /\ forall cand v,
           cand ∈ payload -> cand_max_price_jpy cand = Some v -> m <= v
  end.
Proof.
  unfold global_max_price.
  destruct (omap cand_max_price_jpy payload) as [|v vs] eqn:Hvals.
  - intros cand Hc. destruct (cand_max_price_jpy cand) as [v|] eqn:Hv; [|done].
    assert (Hin : v ∈ omap cand_max_price_jpy payload)
      by (apply list_elem_of_omap; eauto).
    rewrite Hvals in Hin. by apply elem_of_nil in Hin.
  - destruct (foldl_min_spec v vs) as [Hin Hle]. rewrite <- Hvals in Hin, Hle.
    split.
    + apply list_elem_of_omap in Hin as (cand & ? & ?). eauto.
    + intros cand w Hc Hw. apply Hle, list_elem_of_omap. eauto.
Qed.

Lemma nothing_to_search {Exn} lower sched (mercari_client : @Client Exn)
    payload uq :
  (forall cand, cand ∈ payload ->
     match keywords cand with
     | JString kw => blank kw
     | _ => True
     end) ->
  get_recommendations lower sched mercari_client payload uq = ([], Returned []).
Proof.
  intros Hall. unfold get_recommendations.
  destruct payload as [|c0 payload]; [done|].
  assert (Hnone : omap build_request (c0 :: payload) = []).
  { induction (c0 :: payload) as [|c l IH]; [done|].
    assert (Hc : build_request c = None).
    { specialize (Hall c (list_elem_of_here _ _)). unfold build_request.
      destruct (keywords c) as [|kw|]; try done. by rewrite strip_blank. }
    simpl. rewrite Hc. apply IH. intros cand Hin.
    by apply Hall, list_elem_of_further. }
  by rewrite Hnone.
Qed.

(** X12.  When every candidate of the payload has blank or non-text
    keywords, no client call is started and the result is the empty
    list. *)
Theorem no_usable_candidate {Exn} lower sched (mercari_client : @Client Exn)
    payload uq :
  (forall cand, cand ∈ payload ->
     match keywords cand with
     | JString kw => blank kw
     | _ => True
     end) ->
  get_recommendations lower sched mercari_client payload uq = ([], Returned []).
Proof. apply nothing_to_search. Qed.

(** ** [str.strip] *)

Lemma lstrip_head s c r : lstrip s = c :: r -> py_isspace c = false.
Proof.
  induction s as [|a s IH]; simpl; [done|].
  destruct (py_isspace a) eqn:Ha; [done|]. by intros [= <- _].
Qed.

Lemma lstrip_fixed c r : py_isspace c = false -> lstrip (c :: r) = c :: r.
Proof. intros H. simpl. by rewrite H. Qed.

Lemma lstrip_suffix s : exists pre, s = pre ++ lstrip s.
Proof.
  induction s as [|a s [pre IH]]; simpl; [by exists []|].
  destruct (py_isspace a); [|by exists []].
  exists (a :: pre). simpl. by rewrite <- IH.
Qed.

Lemma lstrip_nil_blank t : lstrip t = [] -> blank t.
Proof.
  induction t as [|a t IH]; simpl; [constructor|].
  destruct (py_isspace a) eqn:E; [|done]. intros Hl.
  constructor; [done|by apply IH].
Qed.

Lemma strip_ends s :
  (forall c r, strip s = c :: r -> py_isspace c = false)
  /\ (forall c r, rev (strip s) = c :: r -> py_isspace c = false).
Proof.
  unfold strip. set (a := lstrip s). set (b := lstrip (rev a)). split.
  - intros c r Hb.
    destruct (lstrip_suffix (rev a)) as [pre Hpre]. fold b in Hpre.
    assert (Ha : a = rev b ++ rev pre).
    { rewrite <- (rev_involutive a), Hpre. apply rev_app_distr. }
    rewrite Hb in Ha. simpl in Ha. by apply (lstrip_head s c (r ++ rev pre)).
  - intros c r. rewrite rev_involutive. apply lstrip_head.
Qed.

Lemma strip_spec s :
  strip (strip s) = strip s
  /\ (forall c r, strip s = c :: r -> py_isspace c = false)
  /\ (forall c r, rev (strip s) = c :: r -> py_isspace c = false)
  /\ (blank s <-> strip s = []).
Proof.
  destruct (strip_ends s) as [Hfirst Hlast].
  split; [|split; [done|split; [done|]]].
  - assert (Hl : forall t, (forall c r, t = c :: r -> py_isspace c = false) ->
                            lstrip t = t).
    { intros [|c r] Ht; [done|]. apply lstrip_fixed. exact (Ht c r eq_refl). }
    unfold strip at 1. rewrite (Hl (strip s) Hfirst).
    rewrite (Hl (rev (strip s)) Hlast). apply rev_involutive.
  - split; [apply strip_blank|]. intros Hs. unfold strip in Hs.
    assert (Hb : lstrip (rev (lstrip s)) = []).
    { by rewrite <- (rev_involutive (lstrip _)), Hs. }
    assert (Ha : lstrip s = []).
    { destruct (lstrip s) as [|c r] eqn:Ha; [done|].
      pose proof (lstrip_head s c r Ha) as Hc.
      destruct (lstrip_suffix (rev (c :: r))) as [pre Hpre].
      rewrite Hb, app_nil_r in Hpre.
      pose proof (lstrip_nil_blank _ Hb) as Hblank.
      assert (Hin : c ∈ rev (c :: r)).
      { apply list_elem_of_In, in_rev. rewrite rev_involutive. by left. }
      unfold blank in Hblank. rewrite Forall_forall in Hblank.
      specialize (Hblank c Hin). congruence. }
    by apply lstrip_nil_blank.
Qed.

(** X13.  A search request is built exactly from a candidate with
    non-blank text keywords; its query text is the keywords without
    leading and trailing whitespace, and building a request again from its
    own fields gives the same request. *)
Theorem build_request_normalises cand :
  match build_request cand with
  | Some req =>
      exists kw,
        keywords cand = JString kw /\ ~ blank kw
        /\ query_text req = strip kw
        /\ (exists c r, query_text req = c :: r /\ py_isspace c = false)
        /\ (exists c r, rev (query_text req) = c :: r /\ py_isspace c = false)
        /\ build_request
             {| keywords := JString (query_text req);
                min_price_jpy := min_price req;
                cand_max_price_jpy := max_price req;
                cand_shipping_preference := shipping_preference req;
                cand_location := location req;
                cand_brand := brand req |} = Some req
  | None =>
      match keywords cand with
      | JString kw => blank kw
      | _ => True
      end
  end.
Proof.
  unfold build_request at 1. destruct (keywords cand) as [|kw|] eqn:Hk; try done.
  destruct (strip_spec kw) as (Hidem & Hfirst & Hlast & Hblank).
  destruct (strip kw) as [|c q] eqn:Hs; [by apply Hblank|].
  exists kw. simpl. split; [done|]. split; [by intros ?%Hblank|].
  split; [done|]. split; [exists c, q; split; [done|by eapply Hfirst]|].
  split.
  - destruct (rev (c :: q)) as [|c' r'] eqn:Hr.
    + apply (f_equal (@rev N)) in Hr. by rewrite rev_involutive in Hr.
    + exists c', r'. split; [done|]. by eapply Hlast.
  - unfold build_request. simpl. by rewrite Hidem.
Qed.

Lemma serialize_product_cases p :
  (exists u, serialize_product p = with_url p u)
  /\ (truthy_str (url (shallow p)) = true -> serialize_product p = p)
  /\ (truthy_str (url (shallow p)) = false ->
      url (shallow (serialize_product p))
      = match id (shallow p) with
        | Some (c :: i) =>
            if bool_decide (item_type (shallow p) = Some ITEM_TYPE_MERCARI)
            then Some (ITEM_URL_PREFIX ++ c :: i)
            else url (shallow p)
        | _ => url (shallow p)
        end).
Proof.
  assert (Hself : with_url p (url (shallow p)) = p)
    by by destruct p as [[] ?].
  assert (Hcases :
    (serialize_product p = p
     /\ (truthy_str (url (shallow p)) = true
         \/ truthy_str (id (shallow p)) = false
         \/ bool_decide (item_type (shallow p) = Some ITEM_TYPE_MERCARI) = false))
    \/ (exists c i,
          id (shallow p) = Some (c :: i)
          /\ truthy_str (url (shallow p)) = false
          /\ bool_decide (item_type (shallow p) = Some ITEM_TYPE_MERCARI) = true
          /\ serialize_product p
             = with_url p (Some (ITEM_URL_PREFIX ++ c :: i)))).
  { unfold serialize_product.
    destruct (truthy_str (url (shallow p))); simpl; [by left; eauto|].
    destruct (id (shallow p)) as [[|c i]|]; simpl; try (by left; eauto).
    destruct (bool_decide _); [|by left; eauto].
    right. exists c, i. done. }
  destruct Hcases as [[Heq Hwhy]|(c & i & Hid & Hu & Ht & Heq)].
  - rewrite !Heq. split; [by exists (url (shallow p))|].
    split; [done|]. intros Hu.
    destruct Hwhy as [?|[Hi|Ht]]; [congruence| |].
    + by destruct (id (shallow p)) as [[|c i]|].
    + rewrite Ht. by destruct (id (shallow p)) as [[|c i]|].
  - rewrite !Heq, Hid, Ht. split; [by eauto|split; [congruence|done]].
Qed.

(** X14.  Serialising changes at most the URL: it leaves a product with a
    URL untouched and fills the URL of a product without one exactly when
    the product has an identifier and the ITEM_TYPE_MERCARI tag. *)
Theorem serialize_product_url p :
  (exists u, serialize_product p = with_url p u)
  /\ (truthy_str (url (shallow p)) = true -> serialize_product p = p)
  /\ (truthy_str (url (shallow p)) = false ->
      url (shallow (serialize_product p))
      = match id (shallow p) with
        | Some (c :: i) =>
            if bool_decide (item_type (shallow p) = Some ITEM_TYPE_MERCARI)
            then Some (ITEM_URL_PREFIX ++ c :: i)
            else url (shallow p)
        | _ => url (shallow p)
        end).
Proof. apply serialize_product_cases. Qed.

Section Serialised.
Variable lower : list N -> list N.
Context {Exn : Type}.
Implicit Types (self : @RecommendationService Exn).

(** X15.  Every product that [recommend] returns has a non-empty
    identifier, and its serialised URL is the item page of that identifier
    exactly when its tag is ITEM_TYPE_MERCARI; a product that passed the
    filters with an absent or empty tag is serialised without URL. *)
Theorem recommended_product_url sched self reqs uq ranking p :
  (recommend lower sched self reqs uq).2 = Returned ranking ->
  p ∈ ranking ->
  exists c i,
    id (shallow p) = Some (c :: i)
    /\ tag_ok (shallow p)
    /\ url (shallow (serialize_product p))
       = if bool_decide (item_type (shallow p) = Some ITEM_TYPE_MERCARI)
         then Some (ITEM_URL_PREFIX ++ c :: i)
         else None.
Proof.
  intros Hr Hp.
  destruct (ranking_items lower sched self reqs uq ranking Hr) as [_ Hall].
  destruct (Hall p Hp)
    as (r & res & raw & _ & _ & _ & Ht & Hkeep & Hid & _ & _ & Hty & Hurl).
  destruct (id_ raw) as [[|c i]|] eqn:Hraw; try done.
  exists c, i. split; [done|]. split.
  - apply should_include_spec in Hkeep as [Htag _].
    unfold tag_ok in *. simpl in Htag. by rewrite Hty.
  - destruct (serialize_product_cases p) as (_ & _ & Hfill).
    rewrite Hfill by (by rewrite Hurl). rewrite Hid, Hurl. done.
Qed.

End Serialised.

(** ** The chat turn *)

Lemma slice_from_last {A} (n : Z) (l : list A) :
  n < 0 ->
  exists pre, l = pre ++ slice_from n l
              /\ Z.of_nat (length (slice_from n l))
                 = Z.min (- n) (Z.of_nat (length l)).
Proof.
  intros Hn. unfold slice_from. destruct (Z.ltb_spec n 0); [|lia].
  exists (take (Z.to_nat (Z.of_nat (length l) + n)) l).
  split; [by rewrite take_drop|]. rewrite length_drop. lia.
Qed.

Section ChatFacts.
Variable lower : list N -> list N.
Context {Exn : Type}.
Variables ANALYST PRESENTATION : list N.
Variable loads : list N -> Decoded Exn.
Variable dumps : list ProductFull -> list N.


Lemma chat_attempt_shape sched llm self uq r :
  (chat_attempt lower ANALYST PRESENTATION loads dumps sched llm self uq).2 = Returned r ->
  exists entry,
    r = (default [] (content entry), [user_message uq; entry])
    /\ tool_call_id entry = None.
Proof.
  unfold chat_attempt.
  destruct (create llm _ true) as [first_msg|e]; [|done].
  destruct (match api_tool_calls first_msg with Some _ => _ | None => _ end).2
    as [[|m ms]|e]; [| |done].
  - intros [= <-]. by exists (message_to_dict first_msg).
  - destruct (create llm _ false) as [final_msg|e]; [|done].
    intros [= <-]. by exists (message_to_dict final_msg).
Qed.

(** X16.  Every turn appends the user message and one reply entry to the
    history and keeps the last 12 entries: the reply returned is the
    content of the last entry, the entry before it is the user message,
    the reply entry is never a tool message, and the history is never
    longer than 12. *)
Theorem chat_history_window sched llm (self : MercariChatAgent) uq :
  exists entry pre,
    (chat lower ANALYST PRESENTATION loads dumps sched llm self uq).2.1 = default [] (content entry)
    /\ history self ++ [user_message uq; entry]
       = pre ++ history (chat lower ANALYST PRESENTATION loads dumps sched llm self uq).2.2
    /\ Z.of_nat (length (history (chat lower ANALYST PRESENTATION loads dumps sched llm self uq).2.2))
       = Z.min 12 (Z.of_nat (length (history self)) + 2)
    /\ (exists kept,
          history (chat lower ANALYST PRESENTATION loads dumps sched llm self uq).2.2
          = kept ++ [user_message uq; entry])
    /\ tool_call_id entry = None
    /\ _mercari_client (chat lower ANALYST PRESENTATION loads dumps sched llm self uq).2.2 = _mercari_client self.
Proof.
  unfold chat. simpl.
  set (attempt := chat_attempt lower ANALYST PRESENTATION loads dumps sched llm self uq).
  assert (Hdone : exists entry,
            match attempt.2 with
            | Returned r => r
            | Raised _ =>
                (APOLOGY, [plain_message (lit "user") (Some uq);
                           plain_message (lit "assistant") (Some APOLOGY)])
            end = (default [] (content entry), [user_message uq; entry])
            /\ tool_call_id entry = None).
  { destruct attempt.2 as [r|e] eqn:Ha.
    - by apply chat_attempt_shape in Ha.
    - by exists (plain_message (lit "assistant") (Some APOLOGY)). }
  destruct Hdone as (entry & -> & Hplain). simpl.
  set (k := Z.to_nat (Z.of_nat (length (history self)) + 2 - 12)).
  assert (Hcut : slice_from (-2 * MAX_TURNS)
                   (history self ++ [user_message uq; entry])
                 = drop k (history self) ++ [user_message uq; entry]).
  { unfold slice_from. change (-2 * MAX_TURNS <? 0) with true.
    cbv iota. rewrite length_app. simpl length.
    replace (Z.to_nat (Z.of_nat (length (history self) + 2) + -2 * MAX_TURNS))
      with k by (unfold k, MAX_TURNS; lia).
    apply drop_app_le. unfold k. lia. }
  rewrite Hcut. exists entry, (take k (history self)).
  split; [done|]. split.
  { by rewrite app_assoc, take_drop. }
  split.
  { rewrite length_app, length_drop. simpl. unfold k. lia. }
  split; [by eauto|done].
Qed.

Lemma chat_raised sched llm (self : MercariChatAgent) uq e :
  (chat_attempt lower ANALYST PRESENTATION loads dumps sched llm self uq).2 = Raised e ->
  (chat lower ANALYST PRESENTATION loads dumps sched llm self uq).2.1 = APOLOGY
  /\ history (chat lower ANALYST PRESENTATION loads dumps sched llm self uq).2.2
     = slice_from (-2 * MAX_TURNS)
         (history self ++ [user_message uq; apology_entry]).
Proof. unfold chat. simpl. by intros ->. Qed.

(** X17.  When the analyst call raises, the turn starts no marketplace
    call, replies with the apology and records the user message and the
    apology in the history. *)
Theorem chat_llm_failure sched llm (self : MercariChatAgent) uq e :
  create llm (analyst_messages ANALYST self uq) true = Raised e ->
  (chat lower ANALYST PRESENTATION loads dumps sched llm self uq).1 = []
  /\ (chat lower ANALYST PRESENTATION loads dumps sched llm self uq).2.1 = APOLOGY
  /\ history (chat lower ANALYST PRESENTATION loads dumps sched llm self uq).2.2
     = slice_from (-2 * MAX_TURNS)
         (history self ++ [user_message uq; apology_entry]).
Proof.
  intros He. unfold analyst_messages in He.
  assert (Ha : chat_attempt lower ANALYST PRESENTATION loads dumps sched llm self uq = ([], Raised e)).
  { unfold chat_attempt. by rewrite He. }
  split; [unfold chat; simpl; by rewrite Ha|].
  apply (chat_raised sched llm self uq e). by rewrite Ha.
Qed.

Lemma run_tool_calls_quiet sched k mercari_client uq tcs :
  (forall tc, tc ∈ tcs -> is_get_recommendations tc = true ->
              no_search_arguments loads tc) ->
  run_tool_calls lower loads dumps sched k mercari_client uq tcs
  = ([], Returned (map (fun tc => tool_message dumps tc [])
                       (List.filter is_get_recommendations tcs))).
Proof.
  revert k. induction tcs as [|tc tcs IH]; intros k Hall; [done|].
  assert (IH' := IH (S k) (fun t Ht => Hall t (list_elem_of_further _ _ _ Ht))).
  simpl. unfold is_get_recommendations in *.
  destruct (bool_decide (tc_name tc = lit "get_recommendations")) eqn:Hn;
    simpl; [|exact IH'].
  assert (Hrec : forall payload,
            (forall cand, cand ∈ payload ->
               match keywords cand with JString kw => blank kw | _ => True end) ->
            get_recommendations lower (sched k) mercari_client payload uq
            = ([], Returned [])) by (intros; by apply nothing_to_search).
  destruct (Hall tc (list_elem_of_here _ _) Hn) as [Hd|(payload & Hd & Hb)];
    rewrite Hd.
  - simpl. by rewrite IH'.
  - rewrite (Hrec payload Hb). simpl. by rewrite IH'.
Qed.

(** X18.  The marketplace is reached only through a [get_recommendations]
    tool call with a searchable candidate: when every such call has
    undecodable arguments or only blank candidates, the turn starts no
    marketplace call, and with no such call at all the reply is the
    analyst's own text. *)
Theorem chat_without_search sched llm (self : MercariChatAgent) uq first_msg :
  create llm (analyst_messages ANALYST self uq) true = Returned first_msg ->
  (forall tc, tc ∈ default [] (api_tool_calls first_msg) ->
              is_get_recommendations tc = true -> no_search_arguments loads tc) ->
  (chat lower ANALYST PRESENTATION loads dumps sched llm self uq).1 = []
  /\ (List.filter is_get_recommendations
                  (default [] (api_tool_calls first_msg)) = [] ->
      (chat lower ANALYST PRESENTATION loads dumps sched llm self uq).2.1 = default [] (api_content first_msg)
      /\ history (chat lower ANALYST PRESENTATION loads dumps sched llm self uq).2.2
         = slice_from (-2 * MAX_TURNS)
             (history self ++ [user_message uq; message_to_dict first_msg])).
Proof.
  intros Hc Hall. unfold analyst_messages in Hc.
  assert (Htools :
    match api_tool_calls first_msg with
    | Some tcs => run_tool_calls lower loads dumps sched 0 (_mercari_client self) uq tcs
    | None => ([], Returned [])
    end
    = ([], Returned (map (fun tc => tool_message dumps tc [])
                         (List.filter is_get_recommendations
                            (default [] (api_tool_calls first_msg)))))).
  { destruct (api_tool_calls first_msg) as [tcs|]; [|done].
    by apply run_tool_calls_quiet. }
  split.
  - unfold chat, chat_attempt. simpl. rewrite Hc, Htools. simpl.
    destruct (map _ _); simpl; [done|]. by destruct (create llm _ false).
  - intros Hnone. unfold chat, chat_attempt. simpl. rewrite Hc, Htools, Hnone. done.
Qed.

Lemma recommend_search_raises sched (self : @RecommendationService Exn) reqs uq r e :
  r ∈ reqs ->
  search (client self) r (max_shallow self) = Raised e ->
  exists e', (recommend lower sched self reqs uq).2 = Raised e'.
Proof.
  intros Hr He. apply list_elem_of_lookup in Hr as [i Hi].
  pose proof (lookup_map (fun req => search (client self) req (max_shallow self))
                _ _ _ Hi) as Hout. simpl in Hout. rewrite He in Hout.
  destruct (gather_raises _ (search_order sched) _ _ Hout) as (e' & j & Hg & _).
  exists e'. unfold recommend. destruct reqs as [|r0 reqs]; [done|].
  by rewrite Hg.
Qed.

Lemma run_tool_calls_raises sched k mercari_client uq tcs tc payload cand req e :
  tc ∈ tcs ->
  is_get_recommendations tc = true ->
  loads (tc_arguments tc) = Candidates payload ->
  cand ∈ payload -> build_request cand = Some req ->
  search mercari_client req MAX_SHALLOW = Raised e ->
  exists e', (run_tool_calls lower loads dumps sched k mercari_client uq tcs).2 = Raised e'.
Proof.
  intros Htc Hn Hd Hcand Hreq He. revert k.
  induction tcs as [|t tcs IH]; intros k; [by apply elem_of_nil in Htc|].
  simpl. unfold is_get_recommendations in *.
  apply elem_of_cons in Htc as [<-|Htc].
  - rewrite Hn, Hd. simpl.
    assert (Hraise : exists e',
              (get_recommendations lower (sched k) mercari_client payload uq).2
              = Raised e').
    { unfold get_recommendations.
      destruct payload as [|c0 payload]; [by apply elem_of_nil in Hcand|].
      assert (Hin : req ∈ omap build_request (c0 :: payload))
        by (apply list_elem_of_omap; eauto).
      destruct (omap build_request (c0 :: payload)) as [|r0 reqs];
        [by apply elem_of_nil in Hin|].
      by apply (recommend_search_raises _ _ _ _ req e). }
    destruct Hraise as [e' ->]. eauto.
  - destruct (IH Htc (S k)) as [e' He'].
    destruct (bool_decide (tc_name t = lit "get_recommendations")); simpl;
      [|by eauto].
    destruct (loads (tc_arguments t)) as [|p|e0]; [| |by eauto].
    + simpl. rewrite He'. eauto.
    + destruct (get_recommendations lower (sched k) mercari_client p uq).2;
        simpl; [|by eauto].
      rewrite He'. eauto.
Qed.

(** X19.  A search failure never reaches the caller of [chat]: when a
    search started for a tool call raises, the turn replies with the
    apology and records it in the history. *)
Theorem chat_marketplace_failure sched llm (self : MercariChatAgent) uq
    first_msg tcs tc payload cand req e :
  create llm (analyst_messages ANALYST self uq) true = Returned first_msg ->
  api_tool_calls first_msg = Some tcs ->
  tc ∈ tcs -> is_get_recommendations tc = true ->
  loads (tc_arguments tc) = Candidates payload ->
  cand ∈ payload -> build_request cand = Some req ->
  search (_mercari_client self) req MAX_SHALLOW = Raised e ->
  (chat lower ANALYST PRESENTATION loads dumps sched llm self uq).2.1 = APOLOGY
  /\ history (chat lower ANALYST PRESENTATION loads dumps sched llm self uq).2.2
     = slice_from (-2 * MAX_TURNS)
         (history self ++ [user_message uq; apology_entry]).
Proof.
  intros Hc Htcs Htc Hn Hd Hcand Hreq He. unfold analyst_messages in Hc.
  destruct (run_tool_calls_raises sched 0%nat (_mercari_client self) uq tcs tc
              payload cand req e Htc Hn Hd Hcand Hreq He) as [e' He'].
  apply (chat_raised sched llm self uq e').
  unfold chat_attempt.
  rewrite Hc, Htcs. by rewrite He'.
Qed.

End ChatFacts.

(** ** Tool replies *)

Section Boundaries.
Variable lower : list N -> list N.
Context {Exn : Type}.
Variables ANALYST PRESENTATION : list N.
Variable loads : list N -> Decoded Exn.
Variable dumps : list ProductFull -> list N.
Implicit Types (self : @RecommendationService Exn) (reqs : list SearchRequest).

(** X21.  When the tool loop completes, it has built one tool message per
    [get_recommendations] call, in call order and carrying that call's
    identifier; calls to any other tool get no reply. *)
Theorem tool_replies_match_calls sched k mercari_client uq tcs msgs :
  (run_tool_calls lower loads dumps sched k mercari_client uq tcs).2
  = Returned msgs ->
  map tool_call_id msgs
  = map (fun tc => Some (tc_id tc)) (List.filter is_get_recommendations tcs)
  /\ Forall (fun m => role m = lit "tool"
                      /\ msg_name m = Some (lit "get_recommendations")
                      /\ tool_calls m = None
                      /\ exists recs, content m = Some (dumps recs)) msgs.
Proof.
  revert k msgs. induction tcs as [|tc tcs IH]; intros k msgs.
  - simpl. intros [= <-]. split; [done|constructor].
  - simpl. unfold is_get_recommendations in *.
    destruct (bool_decide (tc_name tc = lit "get_recommendations")); simpl;
      [|apply IH].
    assert (Htail : forall recs msgs0,
              (run_tool_calls lower loads dumps sched (S k) mercari_client uq
                 tcs).2 = Returned msgs0 ->
              msgs = tool_message dumps tc recs :: msgs0 ->
              map tool_call_id msgs
              = Some (tc_id tc)
                :: map (fun tc0 => Some (tc_id tc0))
                     (List.filter
                        (fun tc0 =>
                           bool_decide (tc_name tc0 = lit "get_recommendations"))
                        tcs)
              /\ Forall (fun m => role m = lit "tool"
                                  /\ msg_name m = Some (lit "get_recommendations")
                                  /\ tool_calls m = None
                                  /\ exists recs, content m = Some (dumps recs))
                        msgs).
    { intros recs msgs0 Hrest ->. destruct (IH (S k) msgs0 Hrest) as [Hids Hall].
      split; [simpl; by rewrite Hids|].
      constructor; [|done]. simpl. repeat split; eauto. }
    destruct (loads (tc_arguments tc)) as [|payload|e]; [| |done].
    + simpl.
      destruct (run_tool_calls lower loads dumps sched (S k) mercari_client uq
                  tcs).2 as [msgs0|e] eqn:Hrest; [|done].
      intros [= <-]. by eapply Htail.
    + destruct (get_recommendations lower (sched k) mercari_client payload uq).2
        as [products|e]; [|done]. simpl.
      destruct (run_tool_calls lower loads dumps sched (S k) mercari_client uq
                  tcs).2 as [msgs0|e] eqn:Hrest; [|done].
      intros [= <-]. by eapply Htail.
Qed.

End Boundaries.

(** ** Concrete runs *)

Lemma ranking_sorted_and_capped_witness :
  Z.of_nat (length (final_rank ascii_lower (budget_service 10000) []
                      [full_of (listing 7000) false;
                       full_of (listing 7000) true]))
  <= Z.min MAX_RETURN 2.
Proof.
  apply (proj1 (proj2 (ranking_sorted_and_capped ascii_lower
                         (budget_service 10000) []
                         [full_of (listing 7000) false;
                          full_of (listing 7000) true]))).
  discriminate.
Defined.

Lemma ranking_provenance_witness :
  exists ranking,
    (recommend ascii_lower demo_sched demo_service [request "ps5"]
       (lit "ps5")).2 = Returned ranking
    /\ length ranking = 3%nat
    /\ NoDup (map (fun p => id (shallow p)) ranking).
Proof.
  destruct (recommend ascii_lower demo_sched demo_service [request "ps5"]
              (lit "ps5")).2 as [ranking|e] eqn:Hr; [|discriminate Hr].
  exists ranking. split; [reflexivity|]. split.
  - vm_compute in Hr. injection Hr as <-. reflexivity.
  - exact (proj1 (ranking_provenance ascii_lower demo_sched demo_service
                    [request "ps5"] (lit "ps5") ranking Hr)).
Defined.

Lemma recommend_call_budget_witness :
  exists raws,
    (recommend ascii_lower demo_sched demo_service [request "ps5"]
       (lit "ps5")).1
    = search_calls demo_service [request "ps5"] ++ map EnrichCall raws
    /\ Z.of_nat (length raws) <= MAX_CANDIDATES.
Proof.
  destruct (recommend_call_budget ascii_lower demo_sched demo_service
              [request "ps5"] (lit "ps5")) as (raws & Hlog & _ & Hcap & _).
  exists raws. split; [exact Hlog|]. apply Hcap. discriminate.
Defined.

Lemma enrichment_error_propagates_witness :
  exists e' raw',
    (recommend ascii_lower demo_sched strict_service [request "ps5"]
       (lit "ps5")).2 = Raised e'
    /\ raw' ∈ survivors ascii_lower strict_service
               (current_tokens ascii_lower [request "ps5"] (lit "ps5"))
               (pool [five_items])
    /\ enrich_item (client strict_service) raw' = Raised e'.
Proof.
  apply (enrichment_error_propagates ascii_lower demo_sched strict_service
           [request "ps5"] (lit "ps5") [five_items] (found "m2" 31000)
           "listing removed"%string).
  - discriminate.
  - repeat constructor.
  - apply (list_elem_of_lookup_2 _ 1%nat). reflexivity.
  - reflexivity.
Defined.

Lemma tokenize_tokens_witness :
  tokenize ascii_lower (lit "PS5 console, ps5!") = [lit "ps5"; lit "console"]
  /\ contains (ascii_lower (lit "PS5 console, ps5!")) (lit "console") = true.
Proof.
  split; [reflexivity|].
  apply (proj1 (proj2 (tokenize_tokens ascii_lower (lit "PS5 console, ps5!")))
           (lit "console")).
  change (tokenize ascii_lower (lit "PS5 console, ps5!"))
    with [lit "ps5"; lit "console"].
  apply list_elem_of_further, list_elem_of_here.
Defined.

Lemma mercapi_search_result_witness :
  exists q payer found_items,
    mercapi_search demo_api q (min_price (request "ps5"))
                   (max_price (request "ps5")) payer
    = Returned found_items
    /\ [found "m1" 30000; found "m2" 31000; found "m3" 32000]
       `prefix_of` found_items
    /\ (0 <= 3 ->
        Z.of_nat (length [found "m1" 30000; found "m2" 31000;
                          found "m3" 32000])
        = Z.min 3 (Z.of_nat (length found_items))).
Proof.
  apply (proj1 (mercapi_search_result demo_api (request "ps5") 3)).
  reflexivity.
Defined.

Lemma global_max_price_is_minimum_witness :
  global_max_price [priced_candidate "ps5" (Some 30000); unnamed_candidate;
                    priced_candidate "ps5 pro" None]
  = Some 5000
  /\ forall cand v,
       cand ∈ [priced_candidate "ps5" (Some 30000); unnamed_candidate;
               priced_candidate "ps5 pro" None] ->
       cand_max_price_jpy cand = Some v -> 5000 <= v.
Proof.
  split; [reflexivity|].
  exact (proj2 (global_max_price_is_minimum
                  [priced_candidate "ps5" (Some 30000); unnamed_candidate;
                   priced_candidate "ps5 pro" None])).
Defined.

Lemma no_usable_candidate_witness :
  get_recommendations ascii_lower demo_sched (MercapiClient demo_api)
    [candidate "   "; unnamed_candidate] (lit "ps5")
  = ([], Returned []).
Proof.
  apply no_usable_candidate. intros cand Hc.
  apply elem_of_cons in Hc as [->|Hc]; [repeat constructor|].
  apply list_elem_of_singleton in Hc as ->. exact I.
Defined.

Lemma serialize_product_url_witness :
  url (shallow (serialize_product (full_of (listing 7000) false)))
  = Some (ITEM_URL_PREFIX ++ lit "m1").
Proof.
  exact (proj2 (proj2 (serialize_product_url
                         (full_of (listing 7000) false))) eq_refl).
Defined.

Lemma recommended_product_url_witness :
  exists ranking p c i,
    (recommend ascii_lower demo_sched demo_service [request "ps5"]
       (lit "ps5")).2 = Returned ranking
    /\ p ∈ ranking
    /\ id (shallow p) = Some (c :: i)
    /\ url (shallow (serialize_product p))
       = Some (ITEM_URL_PREFIX ++ c :: i).
Proof.
  destruct (recommend ascii_lower demo_sched demo_service [request "ps5"]
              (lit "ps5")).2 as [[|p rest]|e] eqn:Hr;
    [discriminate Hr| |discriminate Hr].
  destruct (recommended_product_url ascii_lower demo_sched demo_service
              [request "ps5"] (lit "ps5") (p :: rest) p Hr
              (list_elem_of_here _ _)) as (c & i & Hid & _ & Hurl).
  exists (p :: rest), p, c, i. split; [reflexivity|].
  split; [apply list_elem_of_here|]. split; [exact Hid|].
  rewrite Hurl. vm_compute in Hr. injection Hr as <- _. reflexivity.
Defined.

Lemma chat_llm_failure_witness :
  (demo_chat down_llm "ps5 please").1 = []
  /\ (demo_chat down_llm "ps5 please").2.1 = APOLOGY
  /\ history (demo_chat down_llm "ps5 please").2.2
     = slice_from (-2 * MAX_TURNS)
         (history demo_agent
          ++ [user_message (lit "ps5 please"); apology_entry]).
Proof.
  apply (chat_llm_failure ascii_lower (lit "analyst") (lit "presentation")
           demo_loads demo_dumps (fun _ => demo_sched) down_llm demo_agent
           (lit "ps5 please") "rate limited"%string).
  reflexivity.
Defined.

Lemma chat_without_search_witness :
  (demo_chat asking_llm "a jacket").1 = []
  /\ (demo_chat (searching_llm "not json") "a jacket").1 = [].
Proof.
  split.
  - apply (chat_without_search ascii_lower (lit "analyst")
             (lit "presentation") demo_loads demo_dumps (fun _ => demo_sched)
             asking_llm demo_agent (lit "a jacket") (spoken "Which size?"));
      [reflexivity|]. intros tc Htc. by apply elem_of_nil in Htc.
  - apply (chat_without_search ascii_lower (lit "analyst")
             (lit "presentation") demo_loads demo_dumps (fun _ => demo_sched)
             (searching_llm "not json") demo_agent (lit "a jacket")
             (tool_request "get_recommendations" "not json"));
      [reflexivity|]. intros tc Htc _.
    apply list_elem_of_singleton in Htc as ->. left. reflexivity.
Defined.

Lemma chat_marketplace_failure_witness :
  (demo_chat (searching_llm "offline") "ps5 please").2.1 = APOLOGY
  /\ history (demo_chat (searching_llm "offline") "ps5 please").2.2
     = slice_from (-2 * MAX_TURNS)
         (history demo_agent
          ++ [user_message (lit "ps5 please"); apology_entry]).
Proof.
  apply (chat_marketplace_failure ascii_lower (lit "analyst")
           (lit "presentation") demo_loads demo_dumps (fun _ => demo_sched)
           (searching_llm "offline") demo_agent (lit "ps5 please")
           (tool_request "get_recommendations" "offline")
           [{| tc_id := lit "call_1"; tc_type := lit "function";
               tc_name := lit "get_recommendations";
               tc_arguments := lit "offline" |}]
           {| tc_id := lit "call_1"; tc_type := lit "function";
              tc_name := lit "get_recommendations";
              tc_arguments := lit "offline" |}
           [candidate "offline"] (candidate "offline") (request "offline")
           "backend down"%string); try reflexivity.
  - apply list_elem_of_here.
  - apply list_elem_of_here.
Defined.

Lemma tool_replies_match_calls_witness :
  map tool_call_id
      [tool_message demo_dumps
         {| tc_id := lit "call_2"; tc_type := lit "function";
            tc_name := lit "get_recommendations";
            tc_arguments := lit "not json" |} []]
  = [Some (lit "call_2")].
Proof.
  exact (proj1 (tool_replies_match_calls ascii_lower demo_loads demo_dumps
                  (fun _ => demo_sched) 0%nat (MercapiClient demo_api)
                  (lit "ps5")
                  [{| tc_id := lit "call_1"; tc_type := lit "function";
                      tc_name := lit "get_weather";
                      tc_arguments := lit "ps5" |};
                   {| tc_id := lit "call_2"; tc_type := lit "function";
                      tc_name := lit "get_recommendations";
                      tc_arguments := lit "not json" |}]
                  _ eq_refl)).
Defined.
